(** * create-frontend-setup: the scaffolder and its command-line front end

    A shallow embedding of [src/scaffold.mjs] and [bin/cli.mjs].  The
    scaffolder is a straight line of awaited file-system calls and child
    processes; it is embedded in an error/writer/state monad over a model of
    the file system, with the child processes and the file-system faults
    supplied by the environment. *)

From Stdlib Require Import Ascii.
From stdpp Require Import gmap strings list fin_maps.

Local Open Scope string_scope.
Local Open Scope list_scope.

(** ** Strings *)

Definition nl : string := String "010"%char EmptyString.
Definition quote : ascii := "034"%char.

(** The template literals of the source are full of double quotes.  They are
    written here with a backtick in place of every double quote (a backtick
    cannot occur unescaped inside a JavaScript template literal) and [dq]
    puts the double quotes back. *)
Fixpoint dq (s : string) : string :=
  match s with
  | EmptyString => EmptyString
  | String c r => String (if Ascii.eqb c "`" then quote else c) (dq r)
  end.

(** A template given line by line; every line ends with a line feed. *)
Definition unlines (ls : list string) : string :=
  foldr (fun l acc => l +:+ nl +:+ acc) EmptyString ls.

Definition is_empty (s : string) : bool :=
  match s with EmptyString => true | String _ _ => false end.

(** ** Paths (node:path on POSIX)

    An absolute, normalised path is the list of its segments below the
    root. *)

Abbreviation path := (list string).

Fixpoint segments (s : string) : list string :=
  match s with
  | EmptyString => [EmptyString]
  | String c r =>
      if Ascii.eqb c "/" then EmptyString :: segments r
      else match segments r with
           | seg :: rest => String c seg :: rest
           | [] => [String c EmptyString]
           end
  end.

(** One step of normalisation: empty segments and [.] are skipped, [..]
    climbs (and stays at the root). *)
Definition enter (p : path) (seg : string) : path :=
  if is_empty seg then p
  else if String.eqb seg "." then p
  else if String.eqb seg ".." then removelast p
  else p ++ [seg].

Definition is_absolute (s : string) : bool :=
  match s with String c _ => Ascii.eqb c "/" | EmptyString => false end.

(** [path.resolve(cwd, name)] for an absolute, normalised [cwd]. *)
Definition path_resolve (cwd : path) (name : string) : path :=
  fold_left enter (segments name) (if is_absolute name then [] else cwd).

(** [path.join(base, ...parts)] for an absolute, normalised [base]. *)
Definition path_join (base : path) (parts : list string) : path :=
  fold_left (fun p part => fold_left enter (segments part) p) parts base.

(** [q] lies strictly below [p]. *)
Definition strictly_under (p q : path) : Prop :=
  exists rest, rest <> [] /\ q = p ++ rest.

(** [q] is [p] or lies below it. *)
Definition within (p q : path) : Prop := exists rest, q = p ++ rest.

(** ** The file system *)

Inductive node : Type :=
| Dir
| File (content : string).

Abbreviation FS := (gmap (list string) node).

Record JsError : Type := Error { message : string }.

Definition ENOENT : JsError := Error "ENOENT: no such file or directory".
Definition ENOTDIR : JsError := Error "ENOTDIR: not a directory".
Definition EISDIR : JsError := Error "EISDIR: illegal operation on a directory".

Definition fs_exists (p : path) (fs : FS) : bool :=
  match fs !! p with Some _ => true | None => false end.

(** The name of [k] when [k] is a direct child of [p]. *)
Fixpoint child_name (p k : path) : option string :=
  match p, k with
  | [], [name] => Some name
  | a :: p', b :: k' => if String.eqb a b then child_name p' k' else None
  | _, _ => None
  end.

Definition fs_entries (p : path) (fs : FS) : list string :=
  omap (fun kv => child_name p kv.1) (map_to_list fs).

Definition fs_readdir (p : path) (fs : FS) : JsError + list string :=
  match fs !! p with
  | Some Dir => inr (fs_entries p fs)
  | Some (File _) => inl ENOTDIR
  | None => inl ENOENT
  end.

(** Recursive directory creation, from the root down: an existing directory
    is kept, a missing one is created unless the system refuses it
    ([refused]), a file in the way is an error.  The creation stops at the
    first error, and the directories made before it stay. *)
Fixpoint mkdirs (refused : path -> FS -> option JsError)
    (base : path) (segs : list string) (fs : FS) : FS * option JsError :=
  match segs with
  | [] => (fs, None)
  | s :: rest =>
      let p := base ++ [s] in
      match fs !! p with
      | Some Dir => mkdirs refused p rest fs
      | Some (File _) => (fs, Some ENOTDIR)
      | None =>
          match refused p fs with
          | Some e => (fs, Some e)
          | None => mkdirs refused p rest (<[p := Dir]> fs)
          end
      end
  end.

Definition fs_mkdirp (refused : path -> FS -> option JsError)
    (p : path) (fs : FS) : FS * option JsError :=
  mkdirs refused [] p fs.

(** [fs.writeFile] creates or replaces a file in an existing directory. *)
Definition fs_writeFile (p : path) (content : string) (fs : FS) : JsError + FS :=
  match fs !! p with
  | Some Dir => inl EISDIR
  | _ =>
      match p with
      | [] => inl EISDIR
      | _ :: _ =>
          match fs !! removelast p with
          | Some Dir => inr (<[p := File content]> fs)
          | Some (File _) => inl ENOTDIR
          | None => inl ENOENT
          end
      end
  end.

(** ** The environment: child processes and file-system faults *)

Record Command : Type := {
  cmd : string;
  args : list string;
  cwd : path;
  stdio : string
}.

Inductive FsCall : Type :=
| Mkdirp (p : path)
| WriteFile (p : path) (content : string).

Record Env : Type := {
  (** [process.cwd()] *)
  process_cwd : path;
  (** what a child process does to the file system, and whether it fails
      (non-zero exit, or could not be spawned) *)
  child_process : Command -> FS -> FS * option JsError;
  (** the creation of one directory or a write refused by the system
      (permissions, disk full) *)
  fs_fault : FsCall -> FS -> option JsError;
  (** the listing of a directory refused by the system (permissions) *)
  readdir_fault : path -> FS -> option JsError
}.

(** The refusals met by a recursive creation, directory by directory. *)
Definition mkdir_fault (env : Env) (q : path) (fs : FS) : option JsError :=
  fs_fault env (Mkdirp q) fs.

(** What listing [p] gives: the refusal of the system, or the entries. *)
Definition listing (env : Env) (p : path) (fs : FS) : JsError + list string :=
  match readdir_fault env p fs with
  | Some e => inl e
  | None => fs_readdir p fs
  end.

(** ** Observable events *)

Inductive Printable : Type :=
| PStr (s : string)
| PErr (e : JsError).

Inductive Event : Type :=
| EvPathExists (p : path) (r : bool)
| EvReaddir (p : path) (r : JsError + list string)
| EvMkdirp (p : path) (r : option JsError)
| EvWriteFile (p : path) (content : string) (r : option JsError)
| EvSpawn (c : Command)
| EvExit (c : Command) (r : option JsError)
| EvConsoleLog (s : string)
| EvConsoleError (parts : list Printable).

(** ** The monad of asynchronous code

    A computation takes the file system and gives its result (a thrown
    error or a value), the file system it leaves and the events it caused,
    in order.  A call to the file system is one event; a child process has
    an event for its start and one for its completion. *)

Definition M (A : Type) : Type := FS -> (JsError + A) * FS * list Event.

Definition ret {A} (a : A) : M A := fun fs => (inr a, fs, []).

Definition throw {A} (e : JsError) : M A := fun fs => (inl e, fs, []).

Definition bind {A B} (m : M A) (k : A -> M B) : M B := fun fs =>
  match m fs with
  | (inl e, fs1, ev1) => (inl e, fs1, ev1)
  | (inr a, fs1, ev1) =>
      match k a fs1 with
      | (r, fs2, ev2) => (r, fs2, ev1 ++ ev2)
      end
  end.

Global Instance M_ret : MRet M := @ret.
Global Instance M_bind : MBind M := fun A B k m => bind m k.

(** [Promise.all] over calls that have all been issued: every one of them
    runs, whether or not an earlier one was rejected, and the first rejection
    is what the [await] throws. *)
Fixpoint promise_all (ms : list (M unit)) : M unit := fun fs =>
  match ms with
  | [] => (inr tt, fs, [])
  | m :: rest =>
      match m fs with
      | (r, fs1, ev1) =>
          match promise_all rest fs1 with
          | (r', fs2, ev2) =>
              (match r with inl e => inl e | inr _ => r' end, fs2, ev1 ++ ev2)
          end
      end
  end.

Section Primitives.
Variable env : Env.

(** fs-extra's [pathExists] never throws. *)
Definition pathExists (p : path) : M bool := fun fs =>
  let r := fs_exists p fs in (inr r, fs, [EvPathExists p r]).

Definition readdir (p : path) : M (list string) := fun fs =>
  let r := listing env p fs in
  (r, fs, [EvReaddir p r]).

(** fs-extra's [mkdirp]: a failed creation keeps the ancestors it made. *)
Definition mkdirp (p : path) : M unit := fun fs =>
  match fs_mkdirp (mkdir_fault env) p fs with
  | (fs', Some e) => (inl e, fs', [EvMkdirp p (Some e)])
  | (fs', None) => (inr tt, fs', [EvMkdirp p None])
  end.

Definition writeFile (p : path) (content : string) : M unit := fun fs =>
  match fs_fault env (WriteFile p content) fs with
  | Some e => (inl e, fs, [EvWriteFile p content (Some e)])
  | None =>
      match fs_writeFile p content fs with
      | inl e => (inl e, fs, [EvWriteFile p content (Some e)])
      | inr fs' => (inr tt, fs', [EvWriteFile p content None])
      end
  end.

(** Starting a child process gives a promise for its completion. *)
Definition spawn (c : Command) : M Command := fun fs =>
  (inr c, fs, [EvSpawn c]).

(** Awaiting the promise: the child runs to completion; a failed child
    rejects the promise. *)
Definition await (child : M Command) : M unit :=
  bind child (fun c fs =>
    match child_process env c fs with
    | (fs', Some e) => (inl e, fs', [EvExit c (Some e)])
    | (fs', None) => (inr tt, fs', [EvExit c None])
    end).

Definition console_log (s : string) : M unit := fun fs =>
  (inr tt, fs, [EvConsoleLog s]).
End Primitives.

(** ** The file templates of [scaffold.mjs] *)

Definition homeLayout : string :=
  dq (unlines [
    "import { useDispatch } from `react-redux`;";
    "import { useGlobalHook } from `./hooks/useGlobalHook`;";
    "import { setWelcomeMessage } from `./redux/globalSlice`;";
    EmptyString;
    "export default function HomeLayout() {";
    "  const { welcomeMessage } = useGlobalHook();";
    "  const dispatch = useDispatch();";
    EmptyString;
    "  const handleClick = () => {";
    "    dispatch(setWelcomeMessage(`hey i am in In hello`));";
    "  };";
    EmptyString;
    "  return (";
    "    <main style={{ display: `grid`, gap: 16 }}>";
    "      <header>";
    "        <h1>HomeLayout</h1>";
    "        <p>Welcome message from Redux: <strong>{welcomeMessage}</strong></p>";
    "      </header>";
    EmptyString;
    "      <section>";
    "        <button onClick={handleClick} className=`btn-change`>";
    "          Change Welcome Message";
    "        </button>";
    "      </section>";
    "    </main>";
    "  );";
    "}"
  ]).

Definition helperFunctionsJs : string :=
  dq (unlines ["export const JPJS = (x)=>JSON.parse(JSON.stringify(x));"]).

Definition screenMappersJsx : string :=
  dq (unlines ["export const screens = {}; // add mappings here"]).

Definition globalHook : string :=
  dq (unlines [
    "import { useSelector, useDispatch } from `react-redux`;";
    "export const useGlobalHook = () => {";
    "  const dispatch = useDispatch();";
    "  const welcomeMessage = useSelector((s) => s.global.welcomeMessage);";
    "  return { dispatch, welcomeMessage };";
    "};"
  ]).

Definition initialState : string :=
  dq (unlines [
    "export const initialState = {";
    "  global: {";
    "    welcomeMessage: `hello`,";
    "  },";
    "};"
  ]).

Definition globalSlice : string :=
  dq (unlines [
    "import { createSlice } from `@reduxjs/toolkit`;";
    "import { initialState } from `./initialState`;";
    EmptyString;
    "const globalSlice = createSlice({";
    "  name: `global`,";
    "  initialState: initialState.global,";
    "  reducers: {";
    "    setWelcomeMessage(state, action) {";
    "      state.welcomeMessage = action.payload;";
    "    },";
    "  },";
    "});";
    EmptyString;
    "export const { setWelcomeMessage } = globalSlice.actions;";
    "export default globalSlice.reducer;"
  ]).

Definition store : string :=
  dq (unlines [
    "import { configureStore } from `@reduxjs/toolkit`;";
    "import global from `./globalSlice`;";
    EmptyString;
    "export const store = configureStore({";
    "  reducer: {";
    "    global,";
    "  },";
    "});";
    EmptyString;
    "export default store;"
  ]).

Definition customAxiosInstance : string :=
  dq (unlines [
    "import axios from `axios`;";
    EmptyString;
    "export const customAxios = axios.create({";
    "  baseURL: localStorage.getItem(`API_ENDPOINT`),";
    "});"
  ]).

Definition apiJs : string :=
  dq (unlines [
    "import { createAsyncThunk } from `@reduxjs/toolkit`;";
    "import axios from `axios`;";
    "import { customAxios } from `./customAxiosInstance`;";
    EmptyString;
    "export const fetchConfig = createAsyncThunk(";
    "  `getConfigJson`,";
    "  async (_, { rejectWithValue }) => {";
    "    try {";
    "      const res = await axios.get(`/config.json`);";
    "      const data = await res.data;";
    "      localStorage.setItem(`API_ENDPOINT`, data.apiEndpoint);";
    "      customAxios.defaults.baseURL = localStorage.getItem(`API_ENDPOINT`);";
    "      return data;";
    "    } catch (err) {";
    "      return rejectWithValue({";
    "        error: err?.response?.data?.detail || `Could not fetch details.`,";
    "      });";
    "    }";
    "  }";
    ");"
  ]).

Definition setupJs : string :=
  dq (unlines ["// vitest/jest setup"]).

Definition configJson : string :=
  dq (unlines [
    "{";
    "  `apiEndpoint`: `http://localhost:8000`";
    "}"
  ]).

Definition colorsScss : string :=
  dq (unlines [
    "$primary: #2563eb;";
    "$accent-blue: #4f46e5;";
    "$ink-900: #0f172a;";
    "$success: #10b981;";
    "$warn: #f59e0b;";
    "$danger: #ef4444;"
  ]).

Definition variablesScss : string :=
  dq (unlines [
    "$ff: `Poppins`, system-ui, -apple-system, Segoe UI, Roboto, Arial, sans-serif;";
    "$fs-10: 10px; $fs-11: 11px; $fs-12: 12px; $fs-13: 13px; $fs-14: 14px;";
    "$sp-4: 4px; $sp-6: 6px; $sp-8: 8px; $sp-10: 10px; $sp-12: 12px; $sp-16: 16px;";
    "$radius-6: 6px; $radius-8: 8px; $radius-10: 10px;"
  ]).

Definition mixinsScss : string :=
  dq (unlines [
    "@import url('https://fonts.googleapis.com/css2?family=Poppins:wght@400;500;700&display=swap');";
    EmptyString;
    "@mixin app-text($fs, $color, $weight: 400) {";
    "  font-family: 'Poppins';";
    "  font-size: $fs;";
    "  color: $color;";
    "  font-weight: $weight;";
    "  letter-spacing: 0.01em;";
    "}";
    EmptyString;
    "@mixin flex-center { display:flex; align-items:center; justify-content:center; }";
    EmptyString;
    "@mixin transition-smooth { transition: all 0.2s ease-in-out; }";
    EmptyString;
    "@mixin shadow-card { box-shadow: 0 1px 3px 0 rgb(0 0 0 / 0.1), 0 1px 2px -1px rgb(0 0 0 / 0.1); }";
    EmptyString;
    "@mixin shadow-hover { box-shadow: 0 4px 6px -1px rgb(0 0 0 / 0.1), 0 2px 4px -2px rgb(0 0 0 / 0.1); }";
    EmptyString;
    "@mixin layout-row-start() {";
    "  display:flex; flex-direction:row; align-items:flex-start; justify-content:flex-start;";
    "}";
    EmptyString;
    "@mixin layout($flexdirection: row, $justifycontent: center, $alignitems: center) {";
    "  display:flex; flex-direction:$flexdirection; align-items:$alignitems; justify-content:$justifycontent;";
    "}";
    EmptyString;
    "@mixin font-props($font-weight, $font-size, $font-color) {";
    "  font-family: `Poppins`; font-weight:$font-weight; font-size:$font-size; color:$font-color;";
    "}";
    EmptyString;
    "@mixin mobile { @media (max-width: 480px) { @content; } }";
    "@mixin tablet { @media (min-width: 481px) and (max-width: 768px) { @content; } }";
    "@mixin desktop { @media (min-width: 769px) and (max-width: 1279px) { @content; } }";
    "@mixin larger-desktop { @media (min-width: 1280px) { @content; } }"
  ]).

Definition mainScss : string :=
  dq (unlines [
    "@use `abstract/colors`;";
    "@use `abstract/variables`;";
    "@use `abstract/mixins`;";
    EmptyString;
    ":root { font-family: variables.$ff; color: colors.$ink-900; }";
    "body { margin:0; background:#f8fafc; }";
    EmptyString;
    ".container { padding: 16px; border: 1px solid rgba(0,0,0,.06); border-radius: 10px; background: #fff; }";
    ".btn-change { @include mixins.app-text(14px, colors.$ink-900, 500); padding: 8px 12px; border:1px solid rgba(0,0,0,.12); border-radius:8px; background:#fff; cursor:pointer; @include mixins.transition-smooth; }";
    ".btn-change:hover { @include mixins.shadow-hover; transform: translateY(-1px); }"
  ]).

Definition appJsx : string :=
  dq (unlines [
    "import `./styles/_main.scss`;";
    "import HomeLayout from `./HomeLayout.jsx`;";
    "import { Toaster } from `react-hot-toast`;";
    "import { useEffect } from `react`;";
    "import { useDispatch } from `react-redux`;";
    "import { fetchConfig } from `./external/api`;";
    EmptyString;
    "function App() {";
    "  const dispatch = useDispatch();";
    EmptyString;
    "  useEffect(() => {";
    "    dispatch(fetchConfig());";
    "  }, [dispatch]);";
    EmptyString;
    "  return (";
    "    <div className=`container`>";
    "      <HomeLayout />";
    "      <Toaster";
    "        position=`top-right`";
    "        toastOptions={{";
    "          duration: 3000,";
    "          style: {";
    "            fontSize: `14px`,";
    "            marginTop: 20,";
    "            color: `#fff`,";
    "            fontFamily: `Poppins`,";
    "            letterSpacing: `0.7px`,";
    "          },";
    "          success: { style: { background: `#098d6e` } },";
    "          loading: { style: { background: `#162b42` } },";
    "          error: { style: { background: `#ed5565` } },";
    "        }}";
    "      />";
    "    </div>";
    "  );";
    "}"
  ] +:+
    "export default App;").

Definition mainJsx : string :=
  dq (unlines [
    "import React from `react`;";
    "import ReactDOM from `react-dom/client`;";
    "import App from `./App.jsx`;";
    "import { Provider } from `react-redux`;";
    "import { store } from `./redux/store`;";
    EmptyString;
    "ReactDOM.createRoot(document.getElementById(`root`)).render(";
    "  <React.StrictMode>";
    "    <Provider store={store}>";
    "      <App />";
    "    </Provider>";
    "  </React.StrictMode>";
    ");"
  ]).

(** ** [scaffold.mjs] *)

Record ScaffoldArgs : Type := {
  appName : string;
  (** [None] is an absent property: the default applies *)
  packageManager : option string;
  install : option bool
}.

Record ViteArgs : Type := {
  npm : list string;
  pnpm : list string;
  yarn : list string;
  bun : list string
}.

Definition viteArgsByPM (appName : string) : ViteArgs := {|
  npm := ["create"; "vite@latest"; appName; "--"; "--template"; "react"];
  pnpm := ["create"; "vite"; appName; "--template"; "react"];
  yarn := ["create"; "vite"; appName; "--template"; "react"];
  bun := ["x"; "create-vite"; appName; "--template"; "react"]
|}.

(** The [cmd] and [args] chosen for the generator. *)
Definition viteCommand (appName packageManager : string) : string * list string :=
  let cmd := "npm" in
  let args := npm (viteArgsByPM appName) in
  if String.eqb packageManager "pnpm" then ("pnpm", pnpm (viteArgsByPM appName))
  else if String.eqb packageManager "yarn" then ("yarn", yarn (viteArgsByPM appName))
  else if String.eqb packageManager "bun" then ("bun", bun (viteArgsByPM appName))
  else (cmd, args).

Definition finalTip : string :=
  "\n Scaffolded Redux, hooks, API, Toaster, and SCSS successfully.".

Section Scaffold.
Variable env : Env.

(** [run(cmd, args, { cwd })]: execa with inherited standard streams. *)
Definition run (c : string) (a : list string) (dir : path) : M Command :=
  spawn {| cmd := c; args := a; cwd := dir; stdio := "inherit" |}.

(** The target directory: absent (created), empty (kept) or refused. *)
Definition checkTarget (appName : string) (appDir : path) : M unit :=
  found ← pathExists appDir;
  if found : bool then
    (files ← readdir env appDir;
     if negb (Nat.eqb (length files) 0)
     then throw (Error ("Directory '" +:+ appName +:+
                        "' already exists and is not empty."))
     else mret tt)
  else mkdirp env appDir.

(** 1) Create Vite + React (JS) *)
Definition createVite (appName packageManager : string) : M unit :=
  let '(cmd, args) := viteCommand appName packageManager in
  await env (run cmd args (process_cwd env)).

(** 2) Install deps *)
Definition installDeps (packageManager : string) (install : bool)
    (appDir : path) : M unit :=
  if install then
    (await env (run packageManager ["install"] appDir);;
     await env (run packageManager ["add"; "-D"; "sass"] appDir);;
     await env (run packageManager
       ["add"; "@reduxjs/toolkit"; "react-redux"; "axios"; "react-hot-toast"]
       appDir))
  else mret tt.

(** 3) Create folders *)
Definition createFolders (appDir : path) : M unit :=
  let src := path_join appDir ["src"] in
  let mk p := mkdirp env (path_join src [p]) in
  promise_all [
    mk "__tests__";
    mk "assets";
    mk "components/UserControls";
    mk "external";
    mk "helpers";
    mk "hooks";
    mk "redux";
    mk "styles/abstract";
    mk "styles/pages"
  ];;
  mkdirp env (path_join appDir ["public"]).

(** 4) Files, 5) SCSS structure, 6) App.jsx and main.jsx *)
Definition writeFiles (appDir : path) : M unit :=
  let src := path_join appDir ["src"] in
  writeFile env (path_join src ["HomeLayout.jsx"]) homeLayout;;
  writeFile env (path_join src ["helpers"; "helperFunctions.js"]) helperFunctionsJs;;
  writeFile env (path_join src ["helpers"; "screenMappers.jsx"]) screenMappersJsx;;
  writeFile env (path_join src ["hooks"; "useGlobalHook.js"]) globalHook;;
  writeFile env (path_join src ["redux"; "initialState.js"]) initialState;;
  writeFile env (path_join src ["redux"; "globalSlice.js"]) globalSlice;;
  writeFile env (path_join src ["redux"; "store.js"]) store;;
  writeFile env (path_join src ["external"; "customAxiosInstance.js"]) customAxiosInstance;;
  writeFile env (path_join src ["external"; "api.js"]) apiJs;;
  writeFile env (path_join src ["__tests__"; "setup.js"]) setupJs;;
  writeFile env (path_join appDir ["public"; "config.json"]) configJson;;
  let stylesDir := path_join src ["styles"] in
  writeFile env (path_join stylesDir ["abstract"; "_colors.scss"]) colorsScss;;
  writeFile env (path_join stylesDir ["abstract"; "_variables.scss"]) variablesScss;;
  writeFile env (path_join stylesDir ["abstract"; "_mixins.scss"]) mixinsScss;;
  writeFile env (path_join stylesDir ["_main.scss"]) mainScss;;
  writeFile env (path_join src ["App.jsx"]) appJsx;;
  let mainJsxPath := path_join src ["main.jsx"] in
  writeFile env mainJsxPath mainJsx;;
  (* 7) Final tip *)
  console_log finalTip.

(** Everything after the target directory has been accepted. *)
Definition afterTarget (appName packageManager : string) (install : bool)
    (appDir : path) : M unit :=
  createVite appName packageManager;;
  installDeps packageManager install appDir;;
  createFolders appDir;;
  writeFiles appDir.

(** [scaffold({ appName, packageManager = "npm", install = true })]: the body
    of the function in the order of the source, cut at its numbered
    comments. *)
Definition scaffold (a : ScaffoldArgs) : M unit :=
  let appName := appName a in
  let packageManager := default "npm" (packageManager a) in
  let install := default true (install a) in
  let appDir := path_resolve (process_cwd env) appName in
  checkTarget appName appDir;;
  afterTarget appName packageManager install appDir.
End Scaffold.

(** ** [cli.mjs] *)

Record Options : Type := {
  opt_packageManager : string;
  opt_install : bool
}.

(** The option values when no flag is given. *)
Definition defaultOptions : Options :=
  {| opt_packageManager := "npm"; opt_install := true |}.

Definition doneMessage (appName packageManager : string) : string :=
  nl +:+ " Done. Next:" +:+ nl +:+ "  cd " +:+ appName +:+ nl +:+
  "  " +:+ packageManager +:+ " run dev" +:+ nl.

(** [err?.message || err] *)
Definition messageOrError (err : JsError) : Printable :=
  if is_empty (message err) then PErr err else PStr (message err).

(** The action of the command: the exit status of the process, the file
    system it leaves and everything it did. *)
Definition action (env : Env) (appName : string) (opts : Options)
    : FS -> nat * FS * list Event := fun fs =>
  match scaffold env {| appName := appName;
                        packageManager := Some (opt_packageManager opts);
                        install := Some (opt_install opts) |} fs with
  | (inr _, fs', evs) =>
      (0, fs', evs ++ [EvConsoleLog (doneMessage appName (opt_packageManager opts))])
  | (inl err, fs', evs) =>
      (1, fs', evs ++ [EvConsoleError [PStr (nl +:+ " Scaffold failed:");
                                       messageOrError err]])
  end.

(** ** What a trace shows *)

Global Instance Command_eq_dec : EqDecision Command.
Proof. solve_decision. Defined.

(** The child processes started, in order. *)
Definition spawned (evs : list Event) : list Command :=
  omap (fun ev => match ev with EvSpawn c => Some c | _ => None end) evs.

(** The child processes that ran to completion, with their outcome. *)
Definition exited (evs : list Event) : list (Command * option JsError) :=
  omap (fun ev => match ev with EvExit c r => Some (c, r) | _ => None end) evs.

(** The creations and writes requested from the file system. *)
Definition fs_calls (evs : list Event) : list FsCall :=
  omap (fun ev => match ev with
                  | EvMkdirp p _ => Some (Mkdirp p)
                  | EvWriteFile p c _ => Some (WriteFile p c)
                  | _ => None
                  end) evs.

(** The path an event of the file system is about. *)
Definition fs_path (ev : Event) : option path :=
  match ev with
  | EvPathExists p _ | EvReaddir p _ | EvMkdirp p _ | EvWriteFile p _ _ => Some p
  | _ => None
  end.

(** What follows the start of the first child process. *)
Fixpoint after_spawn (evs : list Event) : list Event :=
  match evs with
  | [] => []
  | EvSpawn _ :: rest => rest
  | _ :: rest => after_spawn rest
  end.

(** An operation that was rejected with [e]. *)
Definition failed_with (e : JsError) (ev : Event) : Prop :=
  match ev with
  | EvReaddir _ (inl e') | EvMkdirp _ (Some e')
  | EvWriteFile _ _ (Some e') | EvExit _ (Some e') => e' = e
  | _ => False
  end.

Definition succeeded (ev : Event) : Prop :=
  match ev with
  | EvReaddir _ (inl _) | EvMkdirp _ (Some _)
  | EvWriteFile _ _ (Some _) | EvExit _ (Some _) => False
  | _ => True
  end.

(** At most one child process at a time, and nothing else happens while it
    runs: [running] is the child that has been started and not yet awaited. *)
Fixpoint one_at_a_time (running : option Command) (evs : list Event) : bool :=
  match evs with
  | [] => match running with None => true | Some _ => false end
  | EvSpawn c :: rest =>
      match running with
      | None => one_at_a_time (Some c) rest
      | Some _ => false
      end
  | EvExit c _ :: rest =>
      match running with
      | Some c' => bool_decide (c = c') && one_at_a_time None rest
      | None => false
      end
  | _ :: rest =>
      match running with
      | None => one_at_a_time None rest
      | Some _ => false
      end
  end.

(** The events of [m] satisfy [Q], whatever the file system it starts from. *)
Definition traces (Q : list Event -> Prop) {A} (m : M A) : Prop :=
  forall fs, Q (m fs).2.

(** A segment that [enter] appends as it is. *)
Definition plain (seg : string) : bool :=
  negb (is_empty seg) && negb (String.eqb seg ".") && negb (String.eqb seg "..").

(** ** The folders and the files as tables

    The same calls as in [createFolders] and [writeFiles], with the joins
    carried out: each path is given by its segments below the target
    directory. *)

Definition folders : list path := [
  ["src"; "__tests__"];
  ["src"; "assets"];
  ["src"; "components"; "UserControls"];
  ["src"; "external"];
  ["src"; "helpers"];
  ["src"; "hooks"];
  ["src"; "redux"];
  ["src"; "styles"; "abstract"];
  ["src"; "styles"; "pages"]
].

Definition files : list (path * string) := [
  (["src"; "HomeLayout.jsx"], homeLayout);
  (["src"; "helpers"; "helperFunctions.js"], helperFunctionsJs);
  (["src"; "helpers"; "screenMappers.jsx"], screenMappersJsx);
  (["src"; "hooks"; "useGlobalHook.js"], globalHook);
  (["src"; "redux"; "initialState.js"], initialState);
  (["src"; "redux"; "globalSlice.js"], globalSlice);
  (["src"; "redux"; "store.js"], store);
  (["src"; "external"; "customAxiosInstance.js"], customAxiosInstance);
  (["src"; "external"; "api.js"], apiJs);
  (["src"; "__tests__"; "setup.js"], setupJs);
  (["public"; "config.json"], configJson);
  (["src"; "styles"; "abstract"; "_colors.scss"], colorsScss);
  (["src"; "styles"; "abstract"; "_variables.scss"], variablesScss);
  (["src"; "styles"; "abstract"; "_mixins.scss"], mixinsScss);
  (["src"; "styles"; "_main.scss"], mainScss);
  (["src"; "App.jsx"], appJsx);
  (["src"; "main.jsx"], mainJsx)
].

(** The group of creations issued together. *)
Definition mkdirAll (env : Env) (d : path) (rels : list path) : M unit :=
  promise_all (map (fun rel => mkdirp env (d ++ rel)) rels).

(** The writes of a table one after the other, then [k]. *)
Definition writeAll (env : Env) (d : path) (tbl : list (path * string))
    (k : M unit) : M unit :=
  foldr (fun pc rest => writeFile env (d ++ pc.1) pc.2 ;; rest) k tbl.

(** The events of [createFolders] and [writeFiles] when everything succeeds. *)
Definition folderEvents (d : path) : list Event :=
  map (fun rel => EvMkdirp (d ++ rel) None) (folders ++ [["public"]]).

Definition fileEvents (d : path) : list Event :=
  map (fun pc => EvWriteFile (d ++ pc.1) pc.2 None) files.

(** ** Predicates on runs *)

Definition is_child_event (ev : Event) : bool :=
  match ev with EvSpawn _ | EvExit _ _ => true | _ => false end.

(** The error of a populated target. *)
Definition notEmptyError (name : string) : JsError :=
  Error ("Directory '" +:+ name +:+ "' already exists and is not empty.").

(** A creation or a write strictly below [d], or a line on the console. *)
Definition own_under (d : path) (ev : Event) : Prop :=
  match ev with
  | EvMkdirp p _ | EvWriteFile p _ _ => strictly_under d p
  | EvConsoleLog _ => True
  | _ => False
  end.

(** The child process of [createVite]. *)
Definition generator (env : Env) (name pm : string) : Command :=
  {| cmd := (viteCommand name pm).1; args := (viteCommand name pm).2;
     cwd := process_cwd env; stdio := "inherit" |}.

(** The child processes of [installDeps]. *)
Definition installCommands (pm : string) (d : path) : list Command := [
  {| cmd := pm; args := ["install"]; cwd := d; stdio := "inherit" |};
  {| cmd := pm; args := ["add"; "-D"; "sass"]; cwd := d; stdio := "inherit" |};
  {| cmd := pm;
     args := ["add"; "@reduxjs/toolkit"; "react-redux"; "axios"; "react-hot-toast"];
     cwd := d; stdio := "inherit" |}
].

(** The children of [plan] ran in order up to the first failure, which is
    the result of the run [r]; when none failed all of them ran. *)
Fixpoint ran_in_order (plan : list Command) (r : JsError + unit)
    (xs : list (Command * option JsError)) : Prop :=
  match plan, xs with
  | [], [] => True
  | c :: plan', (c', None) :: xs' => c' = c /\ ran_in_order plan' r xs'
  | c :: _, [(c', Some e)] => c' = c /\ r = inl e
  | _, _ => False
  end.

(** A directory creation of the group that [createFolders] issues together
    (the paths below [src]). *)
Definition sibling (d : path) (ev : Event) : Prop :=
  exists p r, ev = EvMkdirp p r /\ strictly_under (d ++ ["src"]) p.

(** The run was rejected with [e] by the operation [ev]: everything before
    it had succeeded and nothing follows it, except the rest of its group when
    it belongs to the group of [createFolders]. *)
Definition raised (d : path) (e : JsError) (evs : list Event) : Prop :=
  exists pre ev post,
    evs = pre ++ ev :: post /\ Forall succeeded pre /\ failed_with e ev /\
    (post = [] \/ Forall (sibling d) (ev :: post)).

(** [m] succeeds without a failure, or stops at its first failure. *)
Definition stops (d : path) {A} (m : M A) : Prop :=
  forall fs,
    match m fs with
    | (inr _, _, evs) => Forall succeeded evs
    | (inl e, _, evs) => raised d e evs
    end.

(** [m] keeps the value [v] that the file system has at [q]. *)
Definition keeps (q : path) (v : option node) {A} (m : M A) : Prop :=
  forall fs, fs !! q = v -> (m fs).1.2 !! q = v.


(** ** JSON

    What [JSON.parse] gives for a text: objects, arrays, strings with the
    one-character escapes, numbers (kept as their lexeme) and the three
    literals.  [\u] escapes are not read. *)

#[local] Unset Elimination Schemes.
Inductive json : Type :=
| JNull
| JBool (b : bool)
| JNumber (lexeme : string)
| JString (s : string)
| JArray (items : list json)
| JObject (members : list (string * json)).
#[local] Set Elimination Schemes.

Definition is_ws (c : ascii) : bool :=
  Ascii.eqb c " " || Ascii.eqb c "009" || Ascii.eqb c "010" || Ascii.eqb c "013".

Fixpoint skip_ws (s : string) : string :=
  match s with
  | String c r => if is_ws c then skip_ws r else s
  | EmptyString => s
  end.

Definition unescape (c : ascii) : option ascii :=
  if Ascii.eqb c quote then Some quote
  else if Ascii.eqb c "\" then Some "\"%char
  else if Ascii.eqb c "/" then Some "/"%char
  else if Ascii.eqb c "b" then Some "008"%char
  else if Ascii.eqb c "f" then Some "012"%char
  else if Ascii.eqb c "n" then Some "010"%char
  else if Ascii.eqb c "r" then Some "013"%char
  else if Ascii.eqb c "t" then Some "009"%char
  else None.

(** The characters of a string literal after its opening quote, and what
    follows the closing quote. *)
Fixpoint parse_string (s : string) : option (string * string) :=
  match s with
  | EmptyString => None
  | String c r =>
      if Ascii.eqb c quote then Some (EmptyString, r)
      else if Ascii.eqb c "\" then
        match r with
        | String e r' =>
            ch ← unescape e;
            '(body, rest) ← parse_string r';
            Some (String ch body, rest)
        | EmptyString => None
        end
      else
        '(body, rest) ← parse_string r;
        Some (String c body, rest)
  end.

Definition is_number_char (c : ascii) : bool :=
  let n := nat_of_ascii c in
  (Nat.leb 48 n && Nat.leb n 57) ||
  Ascii.eqb c "-" || Ascii.eqb c "+" || Ascii.eqb c "." ||
  Ascii.eqb c "e" || Ascii.eqb c "E".

Fixpoint take_number (s : string) : string * string :=
  match s with
  | String c r =>
      if is_number_char c
      then let '(lexeme, rest) := take_number r in (String c lexeme, rest)
      else (EmptyString, s)
  | EmptyString => (EmptyString, s)
  end.

Fixpoint strip_prefix (lit s : string) : option string :=
  match lit, s with
  | EmptyString, _ => Some s
  | String a lit', String b s' => if Ascii.eqb a b then strip_prefix lit' s' else None
  | String _ _, EmptyString => None
  end.

Section Compound.
(** the parser of one value *)
Variable value : string -> option (json * string).

(** The members of an object after [{] or after a comma. *)
Fixpoint parse_members (fuel : nat) (s : string)
    : option (list (string * json) * string) :=
  match fuel with
  | O => None
  | S fuel' =>
      match skip_ws s with
      | String c r =>
          if Ascii.eqb c quote then
            '(key, r1) ← parse_string r;
            match skip_ws r1 with
            | String c2 r2 =>
                if Ascii.eqb c2 ":" then
                  '(v, r3) ← value r2;
                  match skip_ws r3 with
                  | String c3 r4 =>
                      if Ascii.eqb c3 "," then
                        '(ms, r5) ← parse_members fuel' r4;
                        Some ((key, v) :: ms, r5)
                      else if Ascii.eqb c3 "}" then Some ([(key, v)], r4)
                      else None
                  | EmptyString => None
                  end
                else None
            | EmptyString => None
            end
          else None
      | EmptyString => None
      end
  end.

(** The items of an array after [[] or after a comma. *)
Fixpoint parse_items (fuel : nat) (s : string) : option (list json * string) :=
  match fuel with
  | O => None
  | S fuel' =>
      '(v, r1) ← value s;
      match skip_ws r1 with
      | String c r2 =>
          if Ascii.eqb c "," then
            '(vs, r3) ← parse_items fuel' r2;
            Some (v :: vs, r3)
          else if Ascii.eqb c "]" then Some ([v], r2)
          else None
      | EmptyString => None
      end
  end.
End Compound.

Fixpoint parse_value (fuel : nat) (s : string) : option (json * string) :=
  match fuel with
  | O => None
  | S fuel' =>
      match skip_ws s with
      | EmptyString => None
      | String c r =>
          if Ascii.eqb c quote then
            '(str, rest) ← parse_string r;
            Some (JString str, rest)
          else if Ascii.eqb c "{" then
            match skip_ws r with
            | String c' r' =>
                if Ascii.eqb c' "}" then Some (JObject [], r')
                else '(ms, rest) ← parse_members (parse_value fuel') fuel' r;
                     Some (JObject ms, rest)
            | EmptyString => None
            end
          else if Ascii.eqb c "[" then
            match skip_ws r with
            | String c' r' =>
                if Ascii.eqb c' "]" then Some (JArray [], r')
                else '(vs, rest) ← parse_items (parse_value fuel') fuel' r;
                     Some (JArray vs, rest)
            | EmptyString => None
            end
          else if is_number_char c then
            let '(lexeme, rest) := take_number (String c r) in
            Some (JNumber lexeme, rest)
          else
            match strip_prefix "true" (String c r),
                  strip_prefix "false" (String c r),
                  strip_prefix "null" (String c r) with
            | Some rest, _, _ => Some (JBool true, rest)
            | _, Some rest, _ => Some (JBool false, rest)
            | _, _, Some rest => Some (JNull, rest)
            | _, _, _ => None
            end
      end
  end.

(** A whole text: one value and nothing but white space after it. *)
Definition parse_json (s : string) : option json :=
  '(v, rest) ← parse_value (S (String.length s)) s;
  if is_empty (skip_ws rest) then Some v else None.

(** ** A quiet machine, for examples

    Children that succeed without touching the file system, no faults, and a
    disk with nothing but the working directory. *)

Definition quiet : Env := {|
  process_cwd := ["home"; "dev"];
  child_process := fun _ fs => (fs, None);
  fs_fault := fun _ _ => None;
  readdir_fault := fun _ _ => None
|}.

Definition emptyDisk : FS :=
  <[ ["home"; "dev"] := Dir ]> (<[ ["home"] := Dir ]> (<[ [] := Dir ]> ∅)).

(** The working directory already holds a populated [demo]. *)
Definition populatedDisk : FS :=
  <[ ["home"; "dev"; "demo"; "package.json"] := File "{}" ]>
    (<[ ["home"; "dev"; "demo"] := Dir ]> emptyDisk).

(** The working directory holds an empty [demo]. *)
Definition emptyDemoDisk : FS := <[ ["home"; "dev"; "demo"] := Dir ]> emptyDisk.

Definition demo (pm : option string) (inst : option bool) : ScaffoldArgs :=
  {| appName := "demo"; packageManager := pm; install := inst |}.

(** A machine on which [npm install] exits with status 1. *)
Definition installFails : Env := {|
  process_cwd := ["home"; "dev"];
  child_process := fun c fs =>
    (fs, if bool_decide (cmd c = "npm" /\ args c = ["install"])
         then Some (Error "Command failed with exit code 1: npm install")
         else None);
  fs_fault := fun _ _ => None;
  readdir_fault := fun _ _ => None
|}.

(** A machine that refuses to create [demo/src/assets]. *)
Definition assetsDenied : Env := {|
  process_cwd := ["home"; "dev"];
  child_process := fun _ fs => (fs, None);
  fs_fault := fun call _ =>
    match call with
    | Mkdirp p =>
        if bool_decide (p = ["home"; "dev"; "demo"; "src"; "assets"])
        then Some (Error "EACCES: permission denied, mkdir")
        else None
    | WriteFile _ _ => None
    end;
  readdir_fault := fun _ _ => None
|}.

(** What [createFolders] and [writeFiles] ask of the file system. *)
Definition plannedCalls (d : path) : list FsCall :=
  map (fun rel => Mkdirp (d ++ rel)) (folders ++ [["public"]]) ++
  map (fun pc => WriteFile (d ++ pc.1) pc.2) files.

(** An event of a child, or a creation or write strictly below [d]. *)
Definition child_or_under (d : path) (ev : Event) : Prop :=
  is_child_event ev = true \/ own_under d ev.

(** ** More predicates on runs, more machines *)

(** The only change [m] makes at [q] is to create a missing directory. *)
Definition grows (q : path) {A} (m : M A) : Prop :=
  forall fs,
    (m fs).1.2 !! q = fs !! q \/ (fs !! q = None /\ (m fs).1.2 !! q = Some Dir).

(** The lines written to the console, on either stream. *)
Definition console (evs : list Event) : list Event :=
  omap (fun ev => match ev with
                  | EvConsoleLog _ | EvConsoleError _ => Some ev
                  | _ => None
                  end) evs.

(** The folders and the files, once the target has been accepted and the
    children are done. *)
Definition foldersAndFiles (env : Env) (d : path) : M unit :=
  createFolders env d ≫= fun _ => writeFiles env d.

(** Every folder that is asked for. *)
Definition allFolders : list path := folders ++ [["public"]].





(** A generator that leaves its own [src/App.jsx] in the new directory. *)
Definition viteLike : Env := {|
  process_cwd := ["home"; "dev"];
  child_process := fun c fs =>
    (if bool_decide (head (args c) = Some "create")
     then <[ ["home"; "dev"; "demo"; "src"; "App.jsx"] := File "generated" ]>
            (<[ ["home"; "dev"; "demo"; "src"] := Dir ]> fs)
     else fs, None);
  fs_fault := fun _ _ => None;
  readdir_fault := fun _ _ => None
|}.

(** * Lemmas *)

(** ** Computations and their events *)

Lemma bind_unfold {A B} (m : M A) (k : A -> M B) (fs : FS) :
  (m ≫= k) fs =
  match m fs with
  | (inl e, fs1, ev1) => (inl e, fs1, ev1)
  | (inr a, fs1, ev1) =>
      match k a fs1 with (r, fs2, ev2) => (r, fs2, ev1 ++ ev2) end
  end.
Proof. reflexivity. Qed.

Lemma await_run (env : Env) (c : string) (a : list string) (dir : path) (fs : FS) :
  await env (run c a dir) fs =
  let child := {| cmd := c; args := a; cwd := dir; stdio := "inherit" |} in
  match child_process env child fs with
  | (fs', r) =>
      (match r with Some e => inl e | None => inr tt end, fs',
       [EvSpawn child; EvExit child r])
  end.
Proof.
  unfold await, run, spawn, bind. cbn.
  destruct (child_process env _ fs) as [fs' [e|]]; reflexivity.
Qed.

(** Properties of the events of a computation that survive sequencing. *)
Section Traces.
Variable Q : list Event -> Prop.
Hypothesis Q_nil : Q [].
Hypothesis Q_app : forall a b, Q a -> Q b -> Q (a ++ b).

Lemma traces_ret {A} (a : A) : traces Q (mret a).
Proof. intros fs. exact Q_nil. Qed.

Lemma traces_throw {A} (e : JsError) : traces Q (@throw A e).
Proof. intros fs. exact Q_nil. Qed.

Lemma traces_bind {A B} (m : M A) (k : A -> M B) :
  traces Q m -> (forall a, traces Q (k a)) -> traces Q (m ≫= k).
Proof.
  intros Hm Hk fs. rewrite bind_unfold.
  specialize (Hm fs). destruct (m fs) as [[[e|a] fs1] ev1]; cbn in *; [done|].
  specialize (Hk a fs1). destruct (k a fs1) as [[r fs2] ev2]; cbn in *.
  by apply Q_app.
Qed.

Lemma traces_promise_all (ms : list (M unit)) :
  Forall (traces Q) ms -> traces Q (promise_all ms).
Proof.
  induction 1 as [|m ms Hm _ IH]; intros fs; cbn; [exact Q_nil|].
  specialize (Hm fs). destruct (m fs) as [[r fs1] ev1]; cbn in *.
  specialize (IH fs1). destruct (promise_all ms fs1) as [[r' fs2] ev2]; cbn in *.
  by apply Q_app.
Qed.

Lemma traces_if {A} (b : bool) (m1 m2 : M A) :
  traces Q m1 -> traces Q m2 -> traces Q (if b then m1 else m2).
Proof. by destruct b. Qed.
End Traces.

(** ** Paths: the joins of the scaffolder are plain appends *)

Lemma enter_plain (p : path) (seg : string) :
  plain seg = true -> enter p seg = p ++ [seg].
Proof.
  unfold plain, enter. intros H.
  destruct (is_empty seg); [discriminate|].
  destruct (String.eqb seg "."); [discriminate|].
  destruct (String.eqb seg ".."); [discriminate|]. reflexivity.
Qed.

Lemma fold_enter_plain (segs : list string) (p : path) :
  forallb plain segs = true -> fold_left enter segs p = p ++ segs.
Proof.
  revert p. induction segs as [|s segs IH]; intros p H; cbn in *.
  - by rewrite app_nil_r.
  - apply andb_prop in H as [Hs Hr].
    rewrite enter_plain by done. rewrite IH by done.
    by rewrite <- app_assoc.
Qed.

Lemma path_join_plain (d : path) (parts segs : list string) :
  concat (map segments parts) = segs ->
  forallb plain segs = true ->
  path_join d parts = d ++ segs.
Proof.
  intros <-. unfold path_join. revert d.
  induction parts as [|part parts IH]; intros d H; cbn in *.
  - by rewrite app_nil_r.
  - rewrite forallb_app in H. apply andb_prop in H as [Hp Hr].
    rewrite fold_enter_plain by done. rewrite IH by done.
    by rewrite <- app_assoc.
Qed.

(** Rewrites every join with constant parts into an append of segments. *)
Ltac plain_joins :=
  repeat match goal with
  | |- context [path_join ?d ?parts] =>
      let segs := eval vm_compute in (concat (map segments parts)) in
      rewrite (path_join_plain d parts segs) by (vm_compute; reflexivity)
  end;
  rewrite <- ?app_assoc; cbn [app].

Lemma within_refl (p : path) : within p p.
Proof. exists []. by rewrite app_nil_r. Qed.

Lemma strictly_under_within (p q : path) : strictly_under p q -> within p q.
Proof. intros (rest & _ & ->). by exists rest. Qed.

Lemma strictly_under_app (p rest : path) : rest <> [] -> strictly_under p (p ++ rest).
Proof. intros H. by exists rest. Qed.

Lemma strictly_under_trans (p q r : path) :
  within p q -> strictly_under q r -> strictly_under p r.
Proof.
  intros [a ->] (b & Hb & ->). exists (a ++ b). split.
  - destruct a, b; done.
  - by rewrite app_assoc.
Qed.

(** ** The file system: what each call changes *)

Lemma child_name_app (p : path) (name : string) :
  child_name p (p ++ [name]) = Some name.
Proof.
  induction p as [|a p IH]; cbn; [done|].
  by rewrite String.eqb_refl.
Qed.

Lemma child_name_inv (p k : path) (name : string) :
  child_name p k = Some name -> k = p ++ [name].
Proof.
  revert k. induction p as [|a p IH]; intros k H.
  - destruct k as [|b [|c k]]; cbn in *; congruence.
  - destruct k as [|b k]; cbn in H; [done|].
    destruct (String.eqb a b) eqn:E; [|done].
    apply String.eqb_eq in E as ->. cbn. f_equal. by apply IH.
Qed.

Lemma fs_entries_elem (p : path) (fs : FS) (name : string) :
  name ∈ fs_entries p fs <-> is_Some (fs !! (p ++ [name])).
Proof.
  unfold fs_entries. rewrite list_elem_of_omap. split.
  - intros ([k n] & Hin & Hk). cbn in Hk.
    apply child_name_inv in Hk as ->.
    apply elem_of_map_to_list in Hin. eauto.
  - intros [n Hn]. exists (p ++ [name], n). split.
    + by apply elem_of_map_to_list.
    + cbn. apply child_name_app.
Qed.

Lemma fs_entries_nil (p : path) (fs : FS) :
  (forall name, fs !! (p ++ [name]) = None) -> fs_entries p fs = [].
Proof.
  intros H. destruct (fs_entries p fs) as [|name l] eqn:E; [done|].
  assert (Hin : name ∈ fs_entries p fs) by (rewrite E; left).
  apply fs_entries_elem in Hin as [n Hn]. rewrite H in Hn. done.
Qed.

Lemma fs_entries_cons (p : path) (fs : FS) (name : string) :
  is_Some (fs !! (p ++ [name])) -> negb (Nat.eqb (length (fs_entries p fs)) 0) = true.
Proof.
  intros H. apply fs_entries_elem in H.
  destruct (fs_entries p fs); [by apply elem_of_nil in H | done].
Qed.

(** [mkdirs] changes the file system only at missing paths between [base]
    (excluded) and [base ++ segs], and makes all of them directories; this
    holds whether it succeeds or not. *)
Lemma mkdirs_frame (rf : path -> FS -> option JsError) (segs : list string)
    (base : path) (fs fs' : FS) (o : option JsError) (q : path) :
  mkdirs rf base segs fs = (fs', o) ->
  fs' !! q = fs !! q \/
  (fs !! q = None /\ fs' !! q = Some Dir /\ strictly_under base q /\ within q (base ++ segs)).
Proof.
  revert base fs. induction segs as [|s segs IH]; intros base fs H; cbn in H.
  - left. congruence.
  - assert (Hstep : forall fs0, mkdirs rf (base ++ [s]) segs fs0 = (fs', o) ->
        fs' !! q = fs0 !! q \/
        (fs0 !! q = None /\ fs' !! q = Some Dir /\ strictly_under base q /\
         within q (base ++ s :: segs))).
    { intros fs0 H0. destruct (IH _ _ H0) as [Heq | (Hn & Hd & Hu & Hw)]; [by left|].
      right. repeat split; try done.
      - eapply strictly_under_trans; [|exact Hu]. by exists [s].
      - destruct Hw as [rest Hw]. exists rest.
        rewrite <- app_assoc in Hw. exact Hw. }
    destruct (fs !! (base ++ [s])) as [[|c]|] eqn:E;
      [by apply Hstep | left; congruence |].
    destruct (rf (base ++ [s]) fs) as [e|]; [left; congruence|].
    destruct (Hstep _ H) as [Heq | (Hn & Hd & Hu & Hw)].
    + destruct (decide (q = base ++ [s])) as [->|Hne].
      * rewrite lookup_insert_eq in Heq. right. repeat split; try done.
        -- by apply strictly_under_app.
        -- exists segs. by rewrite <- app_assoc.
      * rewrite lookup_insert_ne in Heq by done. by left.
    + destruct (decide (q = base ++ [s])) as [->|Hne].
      * by rewrite lookup_insert_eq in Hn.
      * rewrite lookup_insert_ne in Hn by done. right. done.
Qed.

(** After a successful [mkdirs] every path from [base] (excluded) down to
    [base ++ segs] is a directory. *)
Lemma mkdirs_dirs (rf : path -> FS -> option JsError) (segs : list string)
    (base : path) (fs fs' : FS) (q : path) :
  mkdirs rf base segs fs = (fs', None) ->
  strictly_under base q -> within q (base ++ segs) ->
  fs' !! q = Some Dir.
Proof.
  revert base fs. induction segs as [|s segs IH]; intros base fs H Hu Hw; cbn in H.
  - exfalso. destruct Hu as (r1 & Hr1 & ->), Hw as [r2 Hw].
    rewrite app_nil_r, <- app_assoc in Hw.
    rewrite <- (app_nil_r base) in Hw at 1. apply app_inv_head in Hw.
    symmetry in Hw. apply app_eq_nil in Hw as [-> _]. done.
  - assert (Hkeep : forall fs0, fs0 !! (base ++ [s]) = Some Dir ->
        mkdirs rf (base ++ [s]) segs fs0 = (fs', None) -> fs' !! q = Some Dir).
    { intros fs0 Hd H0.
      destruct (decide (q = base ++ [s])) as [->|Hne].
      - destruct (mkdirs_frame _ _ _ _ _ _ (base ++ [s]) H0) as [Heq | (Hn & _)];
          congruence.
      - eapply IH; [exact H0 | |].
        + destruct Hu as (r1 & Hr1 & ->), Hw as [r2 Hw].
          destruct r1 as [|a r1]; [done|].
          rewrite <- app_assoc in Hw. apply app_inv_head in Hw.
          cbn in Hw. injection Hw as -> Hw.
          exists r1. split.
          * intros ->. apply Hne. done.
          * rewrite <- app_assoc. done.
        + destruct Hw as [r2 Hw]. exists r2. rewrite <- app_assoc. exact Hw. }
    destruct (fs !! (base ++ [s])) as [[|c]|] eqn:E; [by eapply Hkeep | done |].
    destruct (rf (base ++ [s]) fs) as [e|]; [done|].
    eapply Hkeep; [|exact H]. apply lookup_insert_eq.
Qed.

(** No file in the way, and no missing directory on the way whose creation
    is refused: [mkdirs] succeeds. *)
Lemma mkdirs_succeeds (rf : path -> FS -> option JsError) (segs : list string)
    (base : path) (fs : FS) :
  (forall q c, within q (base ++ segs) -> fs !! q <> Some (File c)) ->
  (forall q fs0, within q (base ++ segs) -> fs !! q = None -> rf q fs0 = None) ->
  exists fs', mkdirs rf base segs fs = (fs', None).
Proof.
  revert base fs. induction segs as [|s segs IH]; intros base fs H Hrf; cbn.
  - eauto.
  - assert (Hin : within (base ++ [s]) (base ++ s :: segs)).
    { exists segs. by rewrite <- app_assoc. }
    destruct (fs !! (base ++ [s])) as [[|c]|] eqn:E.
    + apply IH.
      * intros q c Hq. apply H. by rewrite <- app_assoc in Hq.
      * intros q fs0 Hq. apply Hrf. by rewrite <- app_assoc in Hq.
    + exfalso. by eapply H.
    + rewrite (Hrf _ fs Hin E). apply IH.
      * intros q c Hq. destruct (decide (q = base ++ [s])) as [->|Hne].
        -- by rewrite lookup_insert_eq.
        -- rewrite lookup_insert_ne by done. apply H. by rewrite <- app_assoc in Hq.
      * intros q fs0 Hq. destruct (decide (q = base ++ [s])) as [->|Hne].
        -- by rewrite lookup_insert_eq.
        -- rewrite lookup_insert_ne by done. apply Hrf. by rewrite <- app_assoc in Hq.
Qed.


(** ** The calls one by one *)

Lemma mkdirp_run (env : Env) (p : path) (fs : FS) :
  (exists fs', mkdirp env p fs = (inr tt, fs', [EvMkdirp p None]) /\
               fs_mkdirp (mkdir_fault env) p fs = (fs', None)) \/
  (exists e fs', mkdirp env p fs = (inl e, fs', [EvMkdirp p (Some e)]) /\
                 fs_mkdirp (mkdir_fault env) p fs = (fs', Some e)).
Proof.
  unfold mkdirp. destruct (fs_mkdirp (mkdir_fault env) p fs) as [fs' [e|]];
    [right | left]; eauto.
Qed.

Lemma writeFile_run (env : Env) (p : path) (c : string) (fs : FS) :
  (writeFile env p c fs = (inr tt, <[p := File c]> fs, [EvWriteFile p c None])) \/
  (exists e, writeFile env p c fs = (inl e, fs, [EvWriteFile p c (Some e)])).
Proof.
  unfold writeFile. destruct (fs_fault env (WriteFile p c) fs) as [e|]; [right; eauto|].
  unfold fs_writeFile.
  destruct (fs !! p) as [[|c0]|]; [right; eauto| |];
    (destruct p as [|s p]; [right; eauto|]);
    (destruct (fs !! removelast (s :: p)) as [[|c1]|]; [left; done|right; eauto..]).
Qed.

(** ** [createFolders] and [writeFiles] are the tables *)

Lemma createFolders_table (env : Env) (d : path) :
  createFolders env d = (mkdirAll env d folders ;; mkdirp env (d ++ ["public"])).
Proof. unfold createFolders. cbv beta zeta. plain_joins. reflexivity. Qed.

Lemma writeFiles_table (env : Env) (d : path) :
  writeFiles env d = writeAll env d files (console_log finalTip).
Proof. unfold writeFiles. cbv beta zeta. plain_joins. reflexivity. Qed.

(** ** Every computation of the scaffolder is a sequence of blocks

    A block is one event of the file system or of the console, or a child
    process started and at once awaited. *)

Section Blocks.
Variable Q : list Event -> Prop.
Hypothesis Q_nil : Q [].
Hypothesis Q_app : forall a b, Q a -> Q b -> Q (a ++ b).
Hypothesis Q_event : forall ev, is_child_event ev = false -> Q [ev].
Hypothesis Q_child : forall c r, Q [EvSpawn c; EvExit c r].
Variable env : Env.

Local Abbreviation sound := (traces Q).

Lemma sound_pathExists p : sound (pathExists p).
Proof. intros fs. by apply Q_event. Qed.

Lemma sound_readdir p : sound (readdir env p).
Proof. intros fs. by apply Q_event. Qed.

Lemma sound_mkdirp p : sound (mkdirp env p).
Proof.
  intros fs. destruct (mkdirp_run env p fs) as [(fs' & -> & _) | (e & fs' & -> & _)];
    by apply Q_event.
Qed.

Lemma sound_writeFile p c : sound (writeFile env p c).
Proof.
  intros fs. destruct (writeFile_run env p c fs) as [-> | (e & ->)];
    by apply Q_event.
Qed.

Lemma sound_console_log s : sound (console_log s).
Proof. intros fs. by apply Q_event. Qed.

Lemma sound_await_run c a dir : sound (await env (run c a dir)).
Proof.
  intros fs. rewrite await_run. cbv zeta.
  destruct (child_process env _ fs) as [fs' r]. apply Q_child.
Qed.

Lemma sound_checkTarget name d : sound (checkTarget env name d).
Proof.
  unfold checkTarget. apply traces_bind; auto using sound_pathExists.
  intros [|]; [|apply sound_mkdirp].
  apply traces_bind; auto using sound_readdir.
  intros l. apply traces_if; [by apply traces_throw | by apply traces_ret].
Qed.

Lemma sound_createVite name pm : sound (createVite env name pm).
Proof. unfold createVite. destruct (viteCommand name pm). apply sound_await_run. Qed.

Lemma sound_installDeps pm inst d : sound (installDeps env pm inst d).
Proof.
  unfold installDeps. apply traces_if; [|by apply traces_ret].
  do 2 (apply traces_bind; [done | apply sound_await_run | intros _]).
  apply sound_await_run.
Qed.

Lemma sound_mkdirAll d rels : sound (mkdirAll env d rels).
Proof.
  apply traces_promise_all; [done | done |]. apply Forall_map, Forall_forall.
  intros rel _. apply sound_mkdirp.
Qed.

Lemma sound_createFolders d : sound (createFolders env d).
Proof.
  rewrite createFolders_table. apply traces_bind; auto using sound_mkdirAll.
  intros _. apply sound_mkdirp.
Qed.

Lemma sound_writeAll d tbl k : sound k -> sound (writeAll env d tbl k).
Proof.
  intros Hk. induction tbl as [|[p c] tbl IH]; cbn; [done|].
  apply traces_bind; auto using sound_writeFile.
Qed.

Lemma sound_writeFiles d : sound (writeFiles env d).
Proof. rewrite writeFiles_table. apply sound_writeAll, sound_console_log. Qed.

Lemma sound_afterTarget name pm inst d : sound (afterTarget env name pm inst d).
Proof.
  unfold afterTarget.
  apply traces_bind; auto using sound_createVite. intros _.
  apply traces_bind; auto using sound_installDeps. intros _.
  apply traces_bind; auto using sound_createFolders. intros _.
  apply sound_writeFiles.
Qed.

Lemma sound_scaffold a : sound (scaffold env a).
Proof.
  unfold scaffold. cbv zeta.
  apply traces_bind; auto using sound_checkTarget, sound_afterTarget.
Qed.
End Blocks.

Lemma one_at_a_time_app (a b : list Event) (running : option Command) :
  one_at_a_time running a = true ->
  one_at_a_time running (a ++ b) = one_at_a_time None b.
Proof.
  revert running. induction a as [|ev a IH]; intros running H; cbn in *.
  - by destruct running.
  - destruct ev, running; try done; try by apply IH.
    apply andb_prop in H as [Hc Ha]. rewrite Hc. cbn. by apply IH.
Qed.

Lemma omap_spawned_app (a b : list Event) : spawned (a ++ b) = spawned a ++ spawned b.
Proof. apply omap_app. Qed.

Lemma omap_exited_app (a b : list Event) : exited (a ++ b) = exited a ++ exited b.
Proof. apply omap_app. Qed.

Lemma fs_calls_app (a b : list Event) : fs_calls (a ++ b) = fs_calls a ++ fs_calls b.
Proof. apply omap_app. Qed.

(** No two children overlap, in any run. *)
Lemma scaffold_one_at_a_time (env : Env) (a : ScaffoldArgs) (fs : FS) :
  one_at_a_time None (scaffold env a fs).2 = true.
Proof.
  apply (sound_scaffold (fun evs => one_at_a_time None evs = true)).
  - reflexivity.
  - intros x y Hx Hy. by rewrite one_at_a_time_app.
  - intros ev Hev. by destruct ev.
  - intros c r. cbn. by rewrite bool_decide_eq_true_2.
Qed.

(** Every child that is started is awaited, in the same order. *)
Lemma scaffold_spawned_exited (env : Env) (a : ScaffoldArgs) (fs : FS) :
  spawned (scaffold env a fs).2 = (exited (scaffold env a fs).2).*1.
Proof.
  apply (sound_scaffold (fun evs => spawned evs = (exited evs).*1)).
  - reflexivity.
  - intros x y Hx Hy.
    by rewrite omap_spawned_app, omap_exited_app, fmap_app, Hx, Hy.
  - intros ev Hev. by destruct ev.
  - reflexivity.
Qed.

(** ** The target check, case by case *)

Lemma checkTarget_unfold (env : Env) (name : string) (d : path) (fs : FS) :
  checkTarget env name d fs =
  match fs !! d with
  | None =>
      match mkdirp env d fs with
      | (r, fs', evs) => (r, fs', EvPathExists d false :: evs)
      end
  | Some _ =>
      match listing env d fs with
      | inl e => (inl e, fs, [EvPathExists d true; EvReaddir d (inl e)])
      | inr names =>
          (if negb (Nat.eqb (length names) 0) then inl (notEmptyError name) else inr tt,
           fs, [EvPathExists d true; EvReaddir d (inr names)])
      end
  end.
Proof.
  unfold checkTarget. rewrite bind_unfold. unfold pathExists, fs_exists.
  destruct (fs !! d) as [n|] eqn:E; cbv zeta.
  - rewrite bind_unfold. unfold readdir. cbv zeta.
    destruct (listing env d fs) as [e|names]; [reflexivity|].
    destruct (negb _); reflexivity.
  - destruct (mkdirp env d fs) as [[r fs'] evs]. reflexivity.
Qed.

(** A listing that the system does not refuse gives the entries of a
    directory; the listing of a regular file fails in any case. *)
Lemma listing_dir (env : Env) (d : path) (fs : FS) :
  readdir_fault env d fs = None -> fs !! d = Some Dir ->
  listing env d fs = inr (fs_entries d fs).
Proof. intros Hf Hd. unfold listing, fs_readdir. by rewrite Hf, Hd. Qed.


Lemma checkTarget_no_children (env : Env) (name : string) (d : path) (fs : FS) :
  Forall (fun ev => is_child_event ev = false) (checkTarget env name d fs).2.
Proof.
  apply (sound_checkTarget (Forall (fun ev => is_child_event ev = false))).
  - constructor.
  - intros a b. apply Forall_app_2.
  - intros ev Hev. by apply Forall_singleton.
Qed.

Lemma no_children_spawned (evs : list Event) :
  Forall (fun ev => is_child_event ev = false) evs ->
  spawned evs = [] /\ exited evs = [] /\ after_spawn evs = [].
Proof.
  induction 1 as [|ev evs Hev _ IH]; [done|].
  destruct ev; try done.
Qed.

Lemma after_spawn_app (a b : list Event) (c : Command) :
  Forall (fun ev => is_child_event ev = false) a ->
  after_spawn (a ++ EvSpawn c :: b) = b.
Proof.
  induction 1 as [|ev a Hev _ IH]; [done|].
  destruct ev; done.
Qed.

(** ** The folders and the files lie below the target directory *)

Lemma folders_nonempty : Forall (fun rel : path => rel <> []) folders.
Proof. unfold folders. repeat (constructor; [done|]). constructor. Qed.

Lemma files_nonempty : Forall (fun pc : path * string => pc.1 <> []) files.
Proof. unfold files. repeat (constructor; [done|]). constructor. Qed.

Lemma under_mkdirp (env : Env) (d rel : path) :
  rel <> [] -> traces (Forall (own_under d)) (mkdirp env (d ++ rel)).
Proof.
  intros H fs.
  destruct (mkdirp_run env (d ++ rel) fs) as [(fs' & -> & _) | (e & fs' & -> & _)];
    apply Forall_singleton; by apply strictly_under_app.
Qed.

Lemma under_writeFile (env : Env) (d rel : path) (c : string) :
  rel <> [] -> traces (Forall (own_under d)) (writeFile env (d ++ rel) c).
Proof.
  intros H fs.
  destruct (writeFile_run env (d ++ rel) c fs) as [-> | (e & ->)];
    apply Forall_singleton; by apply strictly_under_app.
Qed.

Lemma under_createFolders (env : Env) (d : path) :
  traces (Forall (own_under d)) (createFolders env d).
Proof.
  rewrite createFolders_table.
  apply traces_bind; [intros a b; apply Forall_app_2 | | intros _].
  - apply traces_promise_all; [constructor | intros a b; apply Forall_app_2 |].
    apply Forall_map. eapply Forall_impl; [apply folders_nonempty|].
    intros rel Hrel. by apply under_mkdirp.
  - by apply under_mkdirp.
Qed.

Lemma under_writeFiles (env : Env) (d : path) :
  traces (Forall (own_under d)) (writeFiles env d).
Proof.
  rewrite writeFiles_table.
  pose proof files_nonempty as H. induction H as [|[p c] tbl Hp _ IH]; cbn.
  - intros fs. by apply Forall_singleton.
  - apply traces_bind; [intros a b; apply Forall_app_2 | | intros _; exact IH].
    by apply under_writeFile.
Qed.

Lemma under_later (env : Env) (d : path) :
  traces (Forall (own_under d)) (createFolders env d ≫= fun _ => writeFiles env d).
Proof.
  apply traces_bind; [intros a b; apply Forall_app_2 | | intros _].
  - apply under_createFolders.
  - apply under_writeFiles.
Qed.

Lemma own_under_no_children (d : path) (evs : list Event) :
  Forall (own_under d) evs -> Forall (fun ev => is_child_event ev = false) evs.
Proof. intros H. eapply Forall_impl; [exact H|]. by intros []. Qed.

(** ** The child processes of a run *)

Lemma bind_await_run {B} (env : Env) (c : string) (a : list string) (dir : path)
    (k : unit -> M B) (fs : FS) :
  (await env (run c a dir) ≫= k) fs =
  let child := {| cmd := c; args := a; cwd := dir; stdio := "inherit" |} in
  match child_process env child fs with
  | (fs1, Some e) => (inl e, fs1, [EvSpawn child; EvExit child (Some e)])
  | (fs1, None) =>
      match k tt fs1 with
      | (r, fs2, ev2) => (r, fs2, EvSpawn child :: EvExit child None :: ev2)
      end
  end.
Proof.
  rewrite bind_unfold, await_run. cbv zeta.
  destruct (child_process env _ fs) as [fs1 [e|]]; reflexivity.
Qed.

Lemma exited_spawn (c : Command) (evs : list Event) :
  exited (EvSpawn c :: evs) = exited evs.
Proof. reflexivity. Qed.

Lemma exited_exit (c : Command) (r : option JsError) (evs : list Event) :
  exited (EvExit c r :: evs) = (c, r) :: exited evs.
Proof. reflexivity. Qed.

Lemma afterTarget_children (env : Env) (name pm : string) (inst : bool)
    (d : path) (fs : FS) :
  ran_in_order (generator env name pm :: if inst then installCommands pm d else [])
    (afterTarget env name pm inst d fs).1.1
    (exited (afterTarget env name pm inst d fs).2).
Proof.
  assert (Hlater : forall fs1,
    exited ((createFolders env d ≫= fun _ => writeFiles env d) fs1).2 = []).
  { intros fs1. apply no_children_spawned, (own_under_no_children d), under_later. }
  unfold afterTarget, generator, createVite.
  destruct (viteCommand name pm) as [c a]. cbn [fst snd].
  rewrite bind_await_run. cbv zeta.
  destruct (child_process env _ fs) as [fs1 [e|]]; [by destruct inst|].
  rewrite bind_unfold. unfold installDeps. destruct inst.
  - rewrite bind_await_run. cbv zeta.
    destruct (child_process env _ fs1) as [fs2 [e|]]; [done|].
    rewrite bind_await_run. cbv zeta.
    destruct (child_process env _ fs2) as [fs3 [e|]]; [done|].
    rewrite await_run. cbv zeta.
    destruct (child_process env _ fs3) as [fs4 [e|]]; [done|].
    specialize (Hlater fs4).
    destruct ((createFolders env d ≫= _) fs4) as [[r fs5] ev5].
    cbn [fst snd app] in *.
    rewrite !exited_spawn, !exited_exit, !exited_spawn, !exited_exit.
    rewrite !exited_spawn, !exited_exit, !exited_spawn, !exited_exit, Hlater.
    cbn. done.
  - unfold mret, M_ret, ret. specialize (Hlater fs1).
    destruct ((createFolders env d ≫= _) fs1) as [[r fs5] ev5].
    cbn [fst snd app] in *.
    rewrite !exited_spawn, !exited_exit, Hlater. cbn. done.
Qed.

Lemma createVite_run (env : Env) (name pm : string) (fs : FS) :
  createVite env name pm fs =
  match child_process env (generator env name pm) fs with
  | (fs1, r) =>
      (match r with Some e => inl e | None => inr tt end, fs1,
       [EvSpawn (generator env name pm); EvExit (generator env name pm) r])
  end.
Proof.
  unfold createVite, generator. destruct (viteCommand name pm) as [c a].
  apply await_run.
Qed.

Lemma scaffold_unfold (env : Env) (a : ScaffoldArgs) (fs : FS) :
  scaffold env a fs =
  let d := path_resolve (process_cwd env) (appName a) in
  match checkTarget env (appName a) d fs with
  | (inl e, fs1, ev1) => (inl e, fs1, ev1)
  | (inr _, fs1, ev1) =>
      match afterTarget env (appName a) (default "npm" (packageManager a))
              (default true (install a)) d fs1 with
      | (r, fs2, ev2) => (r, fs2, ev1 ++ ev2)
      end
  end.
Proof. reflexivity. Qed.

(** The children of a whole run: none when the target is refused, otherwise
    the generator and then the install commands, up to the first failure. *)
Lemma scaffold_children (env : Env) (a : ScaffoldArgs) (fs : FS) :
  let d := path_resolve (process_cwd env) (appName a) in
  let pm := default "npm" (packageManager a) in
  let run := scaffold env a fs in
  ((exists e, run.1.1 = inl e) /\ exited run.2 = [] /\
   (checkTarget env (appName a) d fs).1.1 = run.1.1) \/
  ((checkTarget env (appName a) d fs).1.1 = inr tt /\
   ran_in_order
     (generator env (appName a) pm ::
      if default true (install a) then installCommands pm d else [])
     run.1.1 (exited run.2)).
Proof.
  cbv zeta. rewrite scaffold_unfold. cbv zeta.
  pose proof (checkTarget_no_children env (appName a)
                (path_resolve (process_cwd env) (appName a)) fs) as Hc.
  apply no_children_spawned in Hc as (_ & Hc & _).
  destruct (checkTarget env _ _ fs) as [[[e|[]] fs1] ev1]; cbn [fst snd] in *.
  - left. eauto.
  - right. split; [done|].
    pose proof (afterTarget_children env (appName a)
                  (default "npm" (packageManager a)) (default true (install a))
                  (path_resolve (process_cwd env) (appName a)) fs1) as Hr.
    destruct (afterTarget env _ _ _ _ fs1) as [[r fs2] ev2]; cbn [fst snd] in *.
    by rewrite omap_exited_app, Hc.
Qed.

(** ** Failures stop the run *)

Lemma raised_one (d : path) (e : JsError) (ev : Event) :
  failed_with e ev -> raised d e [ev].
Proof.
  intros H. exists [], ev, [].
  split; [done|]. split; [constructor|]. split; [done | by left].
Qed.

Lemma raised_app (d : path) (e : JsError) (evs1 evs2 : list Event) :
  Forall succeeded evs1 -> raised d e evs2 -> raised d e (evs1 ++ evs2).
Proof.
  intros H1 (pre & ev & post & -> & Hpre & Hf & Hpost).
  exists (evs1 ++ pre), ev, post. rewrite <- app_assoc.
  repeat split; try done. by apply Forall_app_2.
Qed.

Lemma stops_ret (d : path) {A} (a : A) : stops d (mret a).
Proof. intros fs. constructor. Qed.

Lemma stops_bind (d : path) {A B} (m : M A) (k : A -> M B) :
  stops d m -> (forall a, stops d (k a)) -> stops d (m ≫= k).
Proof.
  intros Hm Hk fs. rewrite bind_unfold. specialize (Hm fs).
  destruct (m fs) as [[[e|a] fs1] ev1]; [done|].
  specialize (Hk a fs1). destruct (k a fs1) as [[[e|b] fs2] ev2].
  - by apply raised_app.
  - by apply Forall_app_2.
Qed.

Lemma stops_mkdirp (env : Env) (d p : path) : stops d (mkdirp env p).
Proof.
  intros fs. destruct (mkdirp_run env p fs) as [(fs' & -> & _) | (e & fs' & -> & _)].
  - by repeat constructor.
  - by apply raised_one.
Qed.

Lemma stops_writeFile (env : Env) (d p : path) (c : string) : stops d (writeFile env p c).
Proof.
  intros fs. destruct (writeFile_run env p c fs) as [-> | (e & ->)].
  - by repeat constructor.
  - by apply raised_one.
Qed.

Lemma stops_await_run (env : Env) (d : path) (c : string) (a : list string) (dir : path) :
  stops d (await env (run c a dir)).
Proof.
  intros fs. rewrite await_run. cbv zeta.
  destruct (child_process env _ fs) as [fs' [e|]].
  - apply (raised_app d e [_] [_]); [by repeat constructor | by apply raised_one].
  - by repeat constructor.
Qed.

Lemma stops_console_log (d : path) (s : string) : stops d (console_log s).
Proof. intros fs. by repeat constructor. Qed.

Lemma mkdirAll_group (env : Env) (d : path) (rels : list path) (fs : FS) :
  Forall (strictly_under ["src"]) rels ->
  match mkdirAll env d rels fs with
  | (r, _, evs) =>
      Forall (sibling d) evs /\
      match r with
      | inr _ => Forall succeeded evs
      | inl e => exists pre ev post,
          evs = pre ++ ev :: post /\ Forall succeeded pre /\ failed_with e ev
      end
  end.
Proof.
  intros H. revert fs. induction H as [|rel rels Hrel _ IH]; intros fs.
  { cbn. split; constructor. }
  unfold mkdirAll. cbn [map promise_all]. fold (mkdirAll env d rels).
  assert (Hsib : forall r, sibling d (EvMkdirp (d ++ rel) r)).
  { intros r. exists (d ++ rel), r. split; [done|].
    destruct Hrel as (rest & Hrest & ->). exists rest.
    split; [done|]. by rewrite <- app_assoc. }
  destruct (mkdirp_run env (d ++ rel) fs) as [(fs1 & -> & _) | (e & fs1 & -> & _)].
  - specialize (IH fs1). destruct (mkdirAll env d rels fs1) as [[r' fs2] ev2].
    destruct IH as [Hs Hr]. split; [by constructor|].
    destruct r' as [e|u].
    + destruct Hr as (pre & ev & post & -> & Hpre & Hf).
      exists (EvMkdirp (d ++ rel) None :: pre), ev, post.
      repeat split; try done. by constructor.
    + by constructor.
  - specialize (IH fs1). destruct (mkdirAll env d rels fs1) as [[r' fs2] ev2].
    destruct IH as [Hs Hr]. split; [by constructor|].
    exists [], (EvMkdirp (d ++ rel) (Some e)), ev2.
    split; [done|]. split; [constructor | done].
Qed.

Lemma folders_under_src : Forall (strictly_under ["src"]) folders.
Proof.
  unfold folders.
  repeat (constructor; [eexists; split; [|reflexivity]; done|]). constructor.
Qed.

Lemma stops_createFolders (env : Env) (d : path) : stops d (createFolders env d).
Proof.
  rewrite createFolders_table. apply stops_bind; [|intros _; apply stops_mkdirp].
  intros fs. pose proof (mkdirAll_group env d folders fs folders_under_src) as H.
  destruct (mkdirAll env d folders fs) as [[[e|u] fs1] evs]; destruct H as [Hs Hr]; [|done].
  destruct Hr as (pre & ev & post & -> & Hpre & Hf).
  exists pre, ev, post. repeat split; try done.
  right. by apply Forall_app in Hs as [_ Hs].
Qed.

Lemma stops_writeFiles (env : Env) (d : path) : stops d (writeFiles env d).
Proof.
  rewrite writeFiles_table. induction files as [|[p c] tbl IH]; cbn.
  - apply stops_console_log.
  - apply stops_bind; [apply stops_writeFile | intros _; exact IH].
Qed.

Lemma stops_afterTarget (env : Env) (name pm : string) (inst : bool) (d : path) :
  stops d (afterTarget env name pm inst d).
Proof.
  unfold afterTarget. apply stops_bind; [|intros _].
  { unfold createVite. destruct (viteCommand name pm). apply stops_await_run. }
  apply stops_bind; [|intros _].
  { unfold installDeps. destruct inst; [|apply stops_ret].
    do 2 (apply stops_bind; [apply stops_await_run | intros _]).
    apply stops_await_run. }
  apply stops_bind; [apply stops_createFolders | intros _; apply stops_writeFiles].
Qed.

(** ** What a run leaves untouched *)

Lemma keeps_ret (q : path) (v : option node) {A} (a : A) : keeps q v (mret a).
Proof. by intros fs. Qed.

Lemma keeps_bind (q : path) (v : option node) {A B} (m : M A) (k : A -> M B) :
  keeps q v m -> (forall a, keeps q v (k a)) -> keeps q v (m ≫= k).
Proof.
  intros Hm Hk fs Hfs. rewrite bind_unfold. specialize (Hm fs Hfs).
  destruct (m fs) as [[[e|a] fs1] ev1]; [done|]. cbn in Hm.
  specialize (Hk a fs1 Hm). by destruct (k a fs1) as [[r fs2] ev2].
Qed.

Lemma keeps_promise_all (q : path) (v : option node) (ms : list (M unit)) :
  Forall (keeps q v) ms -> keeps q v (promise_all ms).
Proof.
  induction 1 as [|m ms Hm _ IH]; intros fs Hfs; cbn; [done|].
  specialize (Hm fs Hfs). destruct (m fs) as [[r fs1] ev1]. cbn in Hm.
  specialize (IH fs1 Hm). by destruct (promise_all ms fs1) as [[r' fs2] ev2].
Qed.

Lemma keeps_mkdirp (env : Env) (q p : path) (v : option node) :
  v <> None \/ ~ within q p -> keeps q v (mkdirp env p).
Proof.
  intros H fs Hfs.
  destruct (mkdirp_run env p fs) as [(fs' & -> & Hmk) | (e & fs' & -> & Hmk)];
    cbn; (destruct (mkdirs_frame _ _ _ _ _ _ q Hmk) as [-> | (Hn & _ & _ & Hw)]; [done|]);
    (destruct H as [H | H]; [congruence | done]).
Qed.

Lemma keeps_writeFile (env : Env) (q p : path) (c : string) (v : option node) :
  q <> p -> keeps q v (writeFile env p c).
Proof.
  intros H fs Hfs. destruct (writeFile_run env p c fs) as [-> | (e & ->)]; [|done].
  cbn. by rewrite lookup_insert_ne.
Qed.

Lemma keeps_await_run (env : Env) (q : path) (v : option node)
    (c : string) (a : list string) (dir : path) :
  (forall child fs, (child_process env child fs).1 !! q = fs !! q) ->
  keeps q v (await env (run c a dir)).
Proof.
  intros H fs Hfs. rewrite await_run. cbv zeta.
  specialize (H {| cmd := c; args := a; cwd := dir; stdio := "inherit" |} fs).
  destruct (child_process env _ fs) as [fs' r]. cbn in *. congruence.
Qed.

Lemma within_app_cases (q d rel : path) :
  within q (d ++ rel) -> within q d \/ within d q.
Proof.
  intros [r Hr]. symmetry in Hr. apply app_eq_app in Hr as [l [[-> _] | [-> _]]].
  - right. by exists l.
  - left. by exists l.
Qed.

Lemma not_within_app (q d rel : path) : ~ within d q -> q <> d ++ rel.
Proof. intros H ->. apply H. by exists rel. Qed.

(** Outside the target directory a run changes nothing of its own, except
    that it creates the missing ancestors of the target. *)
Lemma keeps_scaffold (env : Env) (a : ScaffoldArgs) (q : path) (v : option node) :
  let d := path_resolve (process_cwd env) (appName a) in
  ~ within d q ->
  v <> None \/ ~ within q d ->
  (forall child fs, (child_process env child fs).1 !! q = fs !! q) ->
  keeps q v (scaffold env a).
Proof.
  intros d Hout Hanc Hchild.
  assert (Hmk : forall rel, keeps q v (mkdirp env (d ++ rel))).
  { intros rel. apply keeps_mkdirp. destruct Hanc as [H | H]; [by left | right].
    intros Hw. by apply within_app_cases in Hw as [Hw | Hw]. }
  assert (Hwr : forall rel c, keeps q v (writeFile env (d ++ rel) c)).
  { intros rel c. by apply keeps_writeFile, not_within_app. }
  unfold scaffold. cbv zeta. fold d. apply keeps_bind; [|intros _].
  { unfold checkTarget. apply keeps_bind; [by intros fs|].
    intros [|]; [|rewrite <- (app_nil_r d); apply Hmk].
    apply keeps_bind; [by intros fs|]. intros l. destruct (negb _); by intros fs. }
  unfold afterTarget. apply keeps_bind; [|intros _].
  { unfold createVite. destruct (viteCommand _ _). by apply keeps_await_run. }
  apply keeps_bind; [|intros _].
  { unfold installDeps. destruct (default true (install a)); [|apply keeps_ret].
    do 2 (apply keeps_bind; [by apply keeps_await_run | intros _]).
    by apply keeps_await_run. }
  apply keeps_bind; [|intros _].
  { rewrite createFolders_table. apply keeps_bind; [|intros _; apply Hmk].
    apply keeps_promise_all, Forall_map, Forall_forall. intros rel _. apply Hmk. }
  rewrite writeFiles_table. induction files as [|[p c] tbl IH]; cbn.
  - by intros fs.
  - apply keeps_bind; [apply Hwr | intros _; exact IH].
Qed.

(** ** Successful runs *)

Lemma mkdirAll_ok (env : Env) (d : path) (rels : list path) (fs fs' : FS)
    (u : unit) (evs : list Event) :
  mkdirAll env d rels fs = (inr u, fs', evs) ->
  evs = map (fun rel => EvMkdirp (d ++ rel) None) rels.
Proof.
  revert fs evs. induction rels as [|rel rels IH]; intros fs evs H.
  { unfold mkdirAll in H. cbn in H. by injection H as _ _ <-. }
  unfold mkdirAll in H. cbn [map promise_all] in H. fold (mkdirAll env d rels) in H.
  destruct (mkdirp_run env (d ++ rel) fs) as [(fs1 & E & _) | (e & fs1 & E & _)];
    rewrite E in H.
  - destruct (mkdirAll env d rels fs1) as [[r' fs2] ev2] eqn:E2.
    injection H as -> -> <-. cbn. f_equal. eapply IH, E2.
  - destruct (mkdirAll env d rels fs1) as [[r' fs2] ev2]. discriminate.
Qed.

Lemma writeAll_ok (env : Env) (d : path) (tbl : list (path * string)) (k : M unit)
    (fs fs' : FS) (u : unit) (evs : list Event) :
  NoDup tbl.*1 ->
  writeAll env d tbl k fs = (inr u, fs', evs) ->
  exists fs1 evk,
    k fs1 = (inr u, fs', evk) /\
    evs = map (fun pc => EvWriteFile (d ++ pc.1) pc.2 None) tbl ++ evk /\
    (forall rel c, (rel, c) ∈ tbl -> fs1 !! (d ++ rel) = Some (File c)) /\
    (forall q, (forall rel, rel ∈ tbl.*1 -> q <> d ++ rel) -> fs1 !! q = fs !! q).
Proof.
  intros Hnd. revert fs evs.
  induction tbl as [|[p c] tbl IH]; intros fs evs H.
  { cbn in H. exists fs, evs. repeat split; try done. intros rel c' Hin.
    by apply elem_of_nil in Hin. }
  cbn [fmap list_fmap fst] in Hnd. apply NoDup_cons in Hnd as [Hp Hnd].
  cbn [writeAll foldr] in H. fold (writeAll env d tbl k) in H.
  rewrite bind_unfold in H. cbn [fst snd] in H.
  destruct (writeFile_run env (d ++ p) c fs) as [E | (e & E)]; rewrite E in H;
    [|discriminate].
  destruct (writeAll env d tbl k _) as [[r2 fs2] ev2] eqn:E2.
  injection H as -> -> <-.
  destruct (IH Hnd _ _ E2) as (fs1 & evk & Hk & -> & Hin & Hout).
  exists fs1, evk. split; [done|]. split; [done|]. split.
  - intros rel c' Hrel. apply elem_of_cons in Hrel as [[= -> ->] | Hrel].
    + rewrite Hout; [apply lookup_insert_eq|].
      intros rel Hrel Heq. apply app_inv_head in Heq as ->. done.
    + by apply Hin.
  - intros q Hq. rewrite Hout.
    + apply lookup_insert_ne. intros <-. eapply Hq; [|done]. cbn. left.
    + intros rel Hrel. apply Hq. cbn. by right.
Qed.

Lemma files_NoDup : NoDup files.*1.
Proof. apply (bool_decide_unpack _). vm_compute. reflexivity. Qed.

(** A run that succeeds after the target check: the generator, the install
    commands (children only), every folder, every file, the final tip. *)
Lemma afterTarget_success (env : Env) (name pm : string) (inst : bool) (d : path)
    (fs fs' : FS) (u : unit) (evs : list Event) :
  afterTarget env name pm inst d fs = (inr u, fs', evs) ->
  exists evC,
    evs = EvSpawn (generator env name pm) ::
          evC ++ folderEvents d ++ fileEvents d ++ [EvConsoleLog finalTip] /\
    fs_calls evC = [] /\
    (forall rel c, (rel, c) ∈ files -> fs' !! (d ++ rel) = Some (File c)).
Proof.
  unfold afterTarget. intros H.
  rewrite bind_unfold, createVite_run in H.
  destruct (child_process env (generator env name pm) fs) as [fs1 [e|]];
    [discriminate|].
  rewrite bind_unfold in H.
  assert (HI : fs_calls (installDeps env pm inst d fs1).2 = []).
  { apply (sound_installDeps (fun evs => fs_calls evs = [])); try done.
    intros x y Hx Hy. by rewrite fs_calls_app, Hx, Hy. }
  destruct (installDeps env pm inst d fs1) as [[[e|[]] fs2] evI]; [discriminate|].
  cbn [snd] in HI.
  rewrite bind_unfold, createFolders_table, bind_unfold in H.
  destruct (mkdirAll env d folders fs2) as [[[e|u1] fs3] evF] eqn:EF; [discriminate|].
  apply mkdirAll_ok in EF as ->.
  destruct (mkdirp_run env (d ++ ["public"]) fs3) as [(fs4 & E & _) | (e & fs4 & E & _)];
    rewrite E in H; [|discriminate].
  rewrite writeFiles_table in H.
  destruct (writeAll env d files (console_log finalTip) fs4) as [[r5 fs5] ev5] eqn:EW.
  injection H as H1 H2 H3. subst r5 fs5 evs.
  destruct (writeAll_ok _ _ _ _ _ _ _ _ files_NoDup EW)
    as (fs6 & evk & Hk & -> & Hin & _).
  unfold console_log in Hk. injection Hk as H1 H2. subst fs6 evk.
  exists (EvExit (generator env name pm) None :: evI). split; [|split].
  - unfold folderEvents, fileEvents. rewrite map_app. cbn [map app].
    rewrite <- !app_assoc. reflexivity.
  - cbn. exact HI.
  - exact Hin.
Qed.

(** * The claims *)

(** C1.  When the target directory exists and has at least one entry, and
    the system does not refuse to list it, [scaffold] throws an error whose
    message contains the requested name; all it has done by then is to
    look: no child process, no directory created, no file written, and the
    file system is as it was. *)
Theorem scaffold_refuses_populated_target (env : Env) (a : ScaffoldArgs)
    (fs : FS) (entry : string) :
  let d := path_resolve (process_cwd env) (appName a) in
  fs !! d = Some Dir ->
  is_Some (fs !! (d ++ [entry])) ->
  readdir_fault env d fs = None ->
  exists e names,
    scaffold env a fs = (inl e, fs, [EvPathExists d true; EvReaddir d (inr names)]) /\
    e = Error ("Directory '" +:+ appName a +:+ "' already exists and is not empty.") /\
    (exists pre post, message e = pre +:+ appName a +:+ post) /\
    entry ∈ names.
Proof.
  intros d Hd Hentry Hlist. rewrite scaffold_unfold. cbv zeta. fold d.
  rewrite checkTarget_unfold, Hd, (listing_dir _ _ _ Hlist Hd).
  rewrite (fs_entries_cons _ _ _ Hentry).
  exists (notEmptyError (appName a)), (fs_entries d fs).
  split; [done|]. split; [done|]. split.
  - exists "Directory '", "' already exists and is not empty.". done.
  - by apply fs_entries_elem.
Qed.

Lemma scaffold_refuses_populated_target_witness :
  populatedDisk !! path_resolve (process_cwd quiet) "demo" = Some Dir /\
  is_Some (populatedDisk !! (path_resolve (process_cwd quiet) "demo" ++ ["package.json"])) /\
  readdir_fault quiet (path_resolve (process_cwd quiet) "demo") populatedDisk = None /\
  exists e names,
    scaffold quiet (demo None None) populatedDisk =
      (inl e, populatedDisk,
       [EvPathExists (path_resolve (process_cwd quiet) "demo") true;
        EvReaddir (path_resolve (process_cwd quiet) "demo") (inr names)]) /\
    e = Error ("Directory '" +:+ "demo" +:+ "' already exists and is not empty.") /\
    (exists pre post, message e = pre +:+ "demo" +:+ post) /\
    "package.json" ∈ names.
Proof.
  assert (H1 : populatedDisk !! path_resolve (process_cwd quiet) "demo" = Some Dir)
    by (vm_compute; reflexivity).
  assert (H2 : is_Some (populatedDisk !!
                 (path_resolve (process_cwd quiet) "demo" ++ ["package.json"])))
    by (eexists; vm_compute; reflexivity).
  split; [exact H1|]. split; [exact H2|]. split; [reflexivity|].
  exact (scaffold_refuses_populated_target quiet (demo None None) populatedDisk
           "package.json" H1 H2 eq_refl).
Defined.

Lemma afterTarget_starts (env : Env) (name pm : string) (inst : bool) (d : path)
    (fs : FS) :
  exists r fs' rest,
    afterTarget env name pm inst d fs = (r, fs', EvSpawn (generator env name pm) :: rest).
Proof.
  unfold afterTarget. rewrite bind_unfold, createVite_run.
  destruct (child_process env (generator env name pm) fs) as [fs1 [e|]]; [by eauto|].
  destruct ((installDeps env pm inst d ≫= _) fs1) as [[r fs2] ev2]. by eauto.
Qed.

(** C7.  When the target path does not exist (and nothing prevents its
    creation: no file is in the way, and the system refuses none of the
    missing directories on the way) [scaffold] creates it with every missing
    parent, creates nothing else, and goes on to the generator; when it
    exists and is empty (and the system does not refuse to list it)
    [scaffold] goes on to the generator without creating anything: the
    generator finds the file system as it was. *)
Theorem scaffold_creates_or_keeps_target (env : Env) (a : ScaffoldArgs) (fs : FS) :
  let d := path_resolve (process_cwd env) (appName a) in
  let pm := default "npm" (packageManager a) in
  let inst := default true (install a) in
  (fs !! d = None ->
   (forall q fs0, within q d -> fs !! q = None -> fs_fault env (Mkdirp q) fs0 = None) ->
   (forall q c, within q d -> fs !! q <> Some (File c)) ->
   exists fs1 r fs' rest,
     (forall q, q <> [] -> within q d -> fs1 !! q = Some Dir) /\
     (forall q, fs1 !! q = fs !! q \/ (fs !! q = None /\ within q d)) /\
     afterTarget env (appName a) pm inst d fs1 =
       (r, fs', EvSpawn (generator env (appName a) pm) :: rest) /\
     scaffold env a fs =
       (r, fs', EvPathExists d false :: EvMkdirp d None ::
                EvSpawn (generator env (appName a) pm) :: rest)) /\
  (fs !! d = Some Dir ->
   (forall entry, fs !! (d ++ [entry]) = None) ->
   readdir_fault env d fs = None ->
   exists r fs' rest,
     afterTarget env (appName a) pm inst d fs =
       (r, fs', EvSpawn (generator env (appName a) pm) :: rest) /\
     scaffold env a fs =
       (r, fs', EvPathExists d true :: EvReaddir d (inr []) ::
                EvSpawn (generator env (appName a) pm) :: rest)).
Proof.
  intros d pm inst. split.
  - intros Hd Hfault Hfree.
    destruct (mkdirs_succeeds (mkdir_fault env) d [] fs Hfree Hfault) as [fs1 Hmk].
    destruct (afterTarget_starts env (appName a) pm inst d fs1) as (r & fs' & rest & Hrest).
    exists fs1, r, fs', rest. split; [|split; [|split; [done|]]].
    + intros q Hq Hw. eapply mkdirs_dirs; [exact Hmk | | exact Hw].
      exists q. done.
    + intros q. destruct (mkdirs_frame _ _ _ _ _ _ q Hmk) as [-> | (Hn & _ & _ & Hw)];
        [by left | by right].
    + rewrite scaffold_unfold. cbv zeta. fold d pm inst.
      rewrite checkTarget_unfold, Hd. unfold mkdirp, fs_mkdirp.
      rewrite Hmk, Hrest. reflexivity.
  - intros Hd Hempty Hlist.
    destruct (afterTarget_starts env (appName a) pm inst d fs) as (r & fs' & rest & Hrest).
    exists r, fs', rest. split; [done|].
    rewrite scaffold_unfold. cbv zeta. fold d pm inst.
    rewrite checkTarget_unfold, Hd, (listing_dir _ _ _ Hlist Hd).
    rewrite (fs_entries_nil _ _ Hempty), Hrest. reflexivity.
Qed.

Lemma emptyDisk_lookup (q : path) :
  emptyDisk !! q = None \/ emptyDisk !! q = Some Dir.
Proof.
  unfold emptyDisk. rewrite !lookup_insert, lookup_empty.
  repeat case_decide; auto.
Qed.

Lemma emptyDemoDisk_lookup (q : path) :
  emptyDemoDisk !! q = None \/ emptyDemoDisk !! q = Some Dir.
Proof.
  unfold emptyDemoDisk. rewrite lookup_insert. case_decide; [auto|].
  apply emptyDisk_lookup.
Qed.

Lemma emptyDemoDisk_entries (entry : string) :
  emptyDemoDisk !! (["home"; "dev"; "demo"] ++ [entry]) = None.
Proof.
  unfold emptyDemoDisk, emptyDisk. rewrite !lookup_insert, lookup_empty.
  repeat case_decide; done.
Qed.

Lemma scaffold_creates_or_keeps_target_witness :
  (exists fs1 r fs' rest,
     (forall q, q <> [] -> within q ["home"; "dev"; "demo"] -> fs1 !! q = Some Dir) /\
     (forall q, fs1 !! q = emptyDisk !! q \/
                (emptyDisk !! q = None /\ within q ["home"; "dev"; "demo"])) /\
     afterTarget quiet "demo" "npm" true ["home"; "dev"; "demo"] fs1 =
       (r, fs', EvSpawn (generator quiet "demo" "npm") :: rest) /\
     scaffold quiet (demo None None) emptyDisk =
       (r, fs', EvPathExists ["home"; "dev"; "demo"] false ::
                EvMkdirp ["home"; "dev"; "demo"] None ::
                EvSpawn (generator quiet "demo" "npm") :: rest)) /\
  (exists r fs' rest,
     afterTarget quiet "demo" "npm" true ["home"; "dev"; "demo"] emptyDemoDisk =
       (r, fs', EvSpawn (generator quiet "demo" "npm") :: rest) /\
     scaffold quiet (demo None None) emptyDemoDisk =
       (r, fs', EvPathExists ["home"; "dev"; "demo"] true ::
                EvReaddir ["home"; "dev"; "demo"] (inr []) ::
                EvSpawn (generator quiet "demo" "npm") :: rest)).
Proof.
  split.
  - apply (proj1 (scaffold_creates_or_keeps_target quiet (demo None None) emptyDisk)).
    + vm_compute. reflexivity.
    + intros q fs0 _ _. reflexivity.
    + intros q c _. destruct (emptyDisk_lookup q) as [-> | ->]; discriminate.
  - apply (proj2 (scaffold_creates_or_keeps_target quiet (demo None None) emptyDemoDisk)).
    + vm_compute. reflexivity.
    + exact emptyDemoDisk_entries.
    + reflexivity.
Defined.

(** ** The children, spelled out *)


Lemma ran_all_four (g i1 i2 i3 : Command) (r : JsError + unit)
    (xs : list (Command * option JsError)) :
  ran_in_order [g; i1; i2; i3] r xs ->
  (exists e, r = inl e /\ xs = [(g, Some e)]) \/
  (exists e, r = inl e /\ xs = [(g, None); (i1, Some e)]) \/
  (exists e, r = inl e /\ xs = [(g, None); (i1, None); (i2, Some e)]) \/
  (exists e, r = inl e /\ xs = [(g, None); (i1, None); (i2, None); (i3, Some e)]) \/
  xs = [(g, None); (i1, None); (i2, None); (i3, None)].
Proof.
  intros H. destruct xs as [|[c [e|]] xs]; cbn in H; [done| |].
  { destruct xs; [|done]. destruct H as [-> ->]. left. eauto. }
  destruct H as [-> H]. right.
  destruct xs as [|[c [e|]] xs]; cbn in H; [done| |].
  { destruct xs; [|done]. destruct H as [-> ->]. left. eauto. }
  destruct H as [-> H]. right.
  destruct xs as [|[c [e|]] xs]; cbn in H; [done| |].
  { destruct xs; [|done]. destruct H as [-> ->]. left. eauto. }
  destruct H as [-> H]. right.
  destruct xs as [|[c [e|]] xs]; cbn in H; [done| |].
  { destruct xs; [|done]. destruct H as [-> ->]. left. eauto. }
  destruct H as [-> H]. right. destruct xs; [|done]. done.
Qed.

Lemma generator_unknown (env : Env) (name pm : string) :
  pm <> "pnpm" -> pm <> "yarn" -> pm <> "bun" ->
  generator env name pm =
  {| cmd := "npm"; args := ["create"; "vite@latest"; name; "--"; "--template"; "react"];
     cwd := process_cwd env; stdio := "inherit" |}.
Proof.
  intros H1 H2 H3. unfold generator, viteCommand.
  apply String.eqb_neq in H1, H2, H3. rewrite H1, H2, H3. reflexivity.
Qed.

(** C3.  The first child process of a run is the generator, and it is
    started as soon as the target directory is accepted.  For [npm], [pnpm],
    [yarn] and [bun] it is that manager's own command line; for every other
    value it is the command line of [npm]. *)
Theorem generator_invocation_by_package_manager (env : Env) (a : ScaffoldArgs)
    (fs : FS) :
  let name := appName a in
  let pm := default "npm" (packageManager a) in
  let d := path_resolve (process_cwd env) name in
  let first := head (spawned (scaffold env a fs).2) in
  let invocation c l :=
    {| cmd := c; args := l; cwd := process_cwd env; stdio := "inherit" |} in
  ((checkTarget env name d fs).1.1 = inr tt -> is_Some first) /\
  (forall c, first = Some c ->
     (pm = "npm" ->
      c = invocation "npm" ["create"; "vite@latest"; name; "--"; "--template"; "react"]) /\
     (pm = "pnpm" ->
      c = invocation "pnpm" ["create"; "vite"; name; "--template"; "react"]) /\
     (pm = "yarn" ->
      c = invocation "yarn" ["create"; "vite"; name; "--template"; "react"]) /\
     (pm = "bun" ->
      c = invocation "bun" ["x"; "create-vite"; name; "--template"; "react"]) /\
     (pm <> "npm" -> pm <> "pnpm" -> pm <> "yarn" -> pm <> "bun" ->
      c = invocation "npm" ["create"; "vite@latest"; name; "--"; "--template"; "react"])).
Proof.
  intros name pm d first invocation.
  assert (Hfirst : first = None /\ (exists e, (checkTarget env name d fs).1.1 = inl e) \/
                   first = Some (generator env name pm)).
  { unfold first. rewrite scaffold_spawned_exited.
    destruct (scaffold_children env a fs) as [([e He] & Hx & Hc) | (Hc & Hr)].
    - left. rewrite Hx. split; [done|]. exists e. fold name d in Hc. congruence.
    - right. fold name pm in Hr.
      destruct (exited (scaffold env a fs).2) as [|[c o] xs]; [done|].
      cbn in Hr. destruct o; [destruct xs; [|done]|]; by destruct Hr as [-> _]. }
  split.
  - intros Hok. destruct Hfirst as [[_ [e He]] | ->]; [congruence | eauto].
  - intros c Hc. destruct Hfirst as [[Hn _] | Hg]; [congruence|].
    assert (c = generator env name pm) as -> by congruence.
    repeat split.
    + intros ->. reflexivity.
    + intros ->. reflexivity.
    + intros ->. reflexivity.
    + intros ->. reflexivity.
    + intros _ H1 H2 H3. by apply generator_unknown.
Qed.

Lemma generator_invocation_by_package_manager_witness :
  exists c,
    head (spawned (scaffold quiet (demo (Some "bun") None) emptyDisk).2) = Some c /\
    c = {| cmd := "bun"; args := ["x"; "create-vite"; "demo"; "--template"; "react"];
           cwd := ["home"; "dev"]; stdio := "inherit" |}.
Proof.
  destruct (generator_invocation_by_package_manager quiet (demo (Some "bun") None)
              emptyDisk) as [H1 H2].
  destruct H1 as [c Hc]; [vm_compute; reflexivity|].
  exists c. split; [exact Hc|].
  destruct (H2 c Hc) as (_ & _ & _ & Hbun & _). apply Hbun. reflexivity.
Defined.

(** What the children of a run with installation can be. *)
Lemma install_children (env : Env) (a : ScaffoldArgs) (fs : FS) :
  let pm := default "npm" (packageManager a) in
  let d := path_resolve (process_cwd env) (appName a) in
  let run := scaffold env a fs in
  let g := generator env (appName a) pm in
  let child l := {| cmd := pm; args := l; cwd := d; stdio := "inherit" |} in
  let i1 := child ["install"] in
  let i2 := child ["add"; "-D"; "sass"] in
  let i3 := child ["add"; "@reduxjs/toolkit"; "react-redux"; "axios"; "react-hot-toast"] in
  default true (install a) = true ->
  ((exists e, run.1.1 = inl e) /\ exited run.2 = [] /\
   (checkTarget env (appName a) d fs).1.1 = run.1.1) \/
  (checkTarget env (appName a) d fs).1.1 = inr tt /\
  ((exists e, run.1.1 = inl e /\ exited run.2 = [(g, Some e)]) \/
   (exists e, run.1.1 = inl e /\ exited run.2 = [(g, None); (i1, Some e)]) \/
   (exists e, run.1.1 = inl e /\ exited run.2 = [(g, None); (i1, None); (i2, Some e)]) \/
   (exists e, run.1.1 = inl e /\
              exited run.2 = [(g, None); (i1, None); (i2, None); (i3, Some e)]) \/
   exited run.2 = [(g, None); (i1, None); (i2, None); (i3, None)]).
Proof.
  intros pm d run g child i1 i2 i3 Hinst.
  destruct (scaffold_children env a fs) as [H | [Hc Hr]]; [by left|].
  right. split; [done|]. fold pm d run in Hr. rewrite Hinst in Hr.
  by apply ran_all_four in Hr.
Qed.

(** C5.  With installation enabled the children of a run are, after the
    generator, the install of all declared dependencies, the addition of
    [sass] as a development dependency and the addition of the four libraries,
    in this order and each in the target directory.  No child runs only when
    the target is refused, and the run then throws the error of the target
    check; once the target is accepted the generator runs, a child that
    fails is the last one to run and its error is the error of the run, and
    when no child fails all four have run.  A run that succeeds has run all
    four. *)
Theorem install_runs_three_commands_in_order (env : Env) (a : ScaffoldArgs)
    (fs : FS) :
  let pm := default "npm" (packageManager a) in
  let d := path_resolve (process_cwd env) (appName a) in
  let run := scaffold env a fs in
  let check := checkTarget env (appName a) d fs in
  let g := generator env (appName a) pm in
  let child l := {| cmd := pm; args := l; cwd := d; stdio := "inherit" |} in
  let installAll := child ["install"] in
  let addSass := child ["add"; "-D"; "sass"] in
  let addLibraries :=
    child ["add"; "@reduxjs/toolkit"; "react-redux"; "axios"; "react-hot-toast"] in
  let all := [(g, None); (installAll, None); (addSass, None); (addLibraries, None)] in
  default true (install a) = true ->
  spawned run.2 = (exited run.2).*1 /\
  ((exists e, check.1.1 = inl e /\ run.1.1 = inl e /\ exited run.2 = []) \/
   (check.1.1 = inr tt /\
    ((exists e, run.1.1 = inl e /\ exited run.2 = [(g, Some e)]) \/
     (exists e, run.1.1 = inl e /\ exited run.2 = [(g, None); (installAll, Some e)]) \/
     (exists e, run.1.1 = inl e /\
                exited run.2 = [(g, None); (installAll, None); (addSass, Some e)]) \/
     (exists e, run.1.1 = inl e /\
                exited run.2 = [(g, None); (installAll, None); (addSass, None);
                                (addLibraries, Some e)]) \/
     exited run.2 = all))) /\
  (check.1.1 = inr tt -> Forall (fun x => x.2 = None) (exited run.2) ->
   exited run.2 = all) /\
  (run.1.1 = inr tt -> exited run.2 = all).
Proof.
  cbv beta zeta. intros Hinst.
  split; [apply scaffold_spawned_exited|].
  pose proof (install_children env a fs Hinst) as Hch. cbv beta zeta in Hch.
  destruct Hch as [([e He] & Hx & Hc) | [Hc H]].
  - split; [|split].
    + left. exists e. split; [congruence | done].
    + intros Hok. congruence.
    + intros Hok. congruence.
  - split; [by right|].
    destruct H as [(e & Hr & Hx) | [(e & Hr & Hx) | [(e & Hr & Hx) |
                   [(e & Hr & Hx) | Hx]]]]; rewrite Hx.
    + split; [intros _ Hall | intros; congruence].
      by apply Forall_cons in Hall as [? _].
    + split; [intros _ Hall | intros; congruence].
      by apply Forall_cons in Hall as [_ [? _]%Forall_cons].
    + split; [intros _ Hall | intros; congruence].
      by apply Forall_cons in Hall as [_ [_ [? _]%Forall_cons]%Forall_cons].
    + split; [intros _ Hall | intros; congruence].
      by apply Forall_cons in Hall
        as [_ [_ [_ [? _]%Forall_cons]%Forall_cons]%Forall_cons].
    + done.
Qed.

Lemma install_runs_three_commands_in_order_witness :
  default true (install (demo None None)) = true /\
  exited (scaffold quiet (demo None None) emptyDisk).2 =
  [ ({| cmd := "npm";
        args := ["create"; "vite@latest"; "demo"; "--"; "--template"; "react"];
        cwd := ["home"; "dev"]; stdio := "inherit" |}, None);
    ({| cmd := "npm"; args := ["install"]; cwd := ["home"; "dev"; "demo"];
        stdio := "inherit" |}, None);
    ({| cmd := "npm"; args := ["add"; "-D"; "sass"]; cwd := ["home"; "dev"; "demo"];
        stdio := "inherit" |}, None);
    ({| cmd := "npm";
        args := ["add"; "@reduxjs/toolkit"; "react-redux"; "axios"; "react-hot-toast"];
        cwd := ["home"; "dev"; "demo"]; stdio := "inherit" |}, None) ].
Proof.
  split; [reflexivity|].
  refine (proj2 (proj2 (proj2 (install_runs_three_commands_in_order quiet
            (demo None None) emptyDisk eq_refl))) _).
  vm_compute. reflexivity.
Defined.

(** C9.  For a package manager that is none of the four, the generator is
    run through [npm] but the three install commands are run under the given
    name itself: the children of a run are a prefix of these four commands,
    and all four when no child fails. *)
Theorem unknown_manager_installs_verbatim (env : Env) (a : ScaffoldArgs) (fs : FS) :
  let name := appName a in
  let pm := default "npm" (packageManager a) in
  let d := path_resolve (process_cwd env) name in
  let run := scaffold env a fs in
  let commands := [
    {| cmd := "npm";
       args := ["create"; "vite@latest"; name; "--"; "--template"; "react"];
       cwd := process_cwd env; stdio := "inherit" |};
    {| cmd := pm; args := ["install"]; cwd := d; stdio := "inherit" |};
    {| cmd := pm; args := ["add"; "-D"; "sass"]; cwd := d; stdio := "inherit" |};
    {| cmd := pm;
       args := ["add"; "@reduxjs/toolkit"; "react-redux"; "axios"; "react-hot-toast"];
       cwd := d; stdio := "inherit" |}
  ] in
  pm <> "npm" -> pm <> "pnpm" -> pm <> "yarn" -> pm <> "bun" ->
  default true (install a) = true ->
  spawned run.2 `prefix_of` commands /\
  ((checkTarget env name d fs).1.1 = inr tt ->
   Forall (fun x => x.2 = None) (exited run.2) ->
   spawned run.2 = commands) /\
  (run.1.1 = inr tt -> spawned run.2 = commands).
Proof.
  intros name pm d run commands _ H1 H2 H3 Hinst.
  pose proof (generator_unknown env name pm H1 H2 H3) as Hg.
  pose proof (install_children env a fs Hinst) as Hch. cbv zeta in Hch.
  fold name pm d in Hch. subst run. rewrite scaffold_spawned_exited.
  destruct Hch as [([e He] & Hx & Hc) | [Hc H]].
  - rewrite Hx. split; [by eexists|]. split; [intros; congruence|].
    intros Hr. rewrite He in Hr. done.
  - rewrite Hg in H.
    destruct H as [(e & Hr & ->) | [(e & Hr & ->) | [(e & Hr & ->) |
                   [(e & Hr & ->) | ->]]]]; cbn [fmap list_fmap fst].
    + split; [by eexists|]. split; [intros _ Hall | intros; congruence].
      by apply Forall_cons in Hall as [? _].
    + split; [by eexists|]. split; [intros _ Hall | intros; congruence].
      by apply Forall_cons in Hall as [_ [? _]%Forall_cons].
    + split; [by eexists|]. split; [intros _ Hall | intros; congruence].
      by apply Forall_cons in Hall as [_ [_ [? _]%Forall_cons]%Forall_cons].
    + split; [by exists []|]. split; [intros _ Hall | intros; congruence].
      by apply Forall_cons in Hall
        as [_ [_ [_ [? _]%Forall_cons]%Forall_cons]%Forall_cons].
    + split; [by exists []|]. done.
Qed.

Lemma unknown_manager_installs_verbatim_witness :
  spawned (scaffold quiet (demo (Some "npx") None) emptyDisk).2 =
  [ {| cmd := "npm";
       args := ["create"; "vite@latest"; "demo"; "--"; "--template"; "react"];
       cwd := ["home"; "dev"]; stdio := "inherit" |};
    {| cmd := "npx"; args := ["install"]; cwd := ["home"; "dev"; "demo"];
       stdio := "inherit" |};
    {| cmd := "npx"; args := ["add"; "-D"; "sass"]; cwd := ["home"; "dev"; "demo"];
       stdio := "inherit" |};
    {| cmd := "npx";
       args := ["add"; "@reduxjs/toolkit"; "react-redux"; "axios"; "react-hot-toast"];
       cwd := ["home"; "dev"; "demo"]; stdio := "inherit" |} ].
Proof.
  refine (proj2 (proj2 (unknown_manager_installs_verbatim quiet
            (demo (Some "npx") None) emptyDisk _ _ _ _ _)) _);
    try discriminate; vm_compute; reflexivity.
Defined.

(** ** What a successful run has asked of the file system *)

Lemma fs_calls_mkdirs (d : path) (rels : list path) :
  fs_calls (map (fun rel => EvMkdirp (d ++ rel) None) rels) =
  map (fun rel => Mkdirp (d ++ rel)) rels.
Proof. induction rels as [|rel rels IH]; cbn; [done|]. by f_equal. Qed.

Lemma fs_calls_writes (d : path) (tbl : list (path * string)) :
  fs_calls (map (fun pc => EvWriteFile (d ++ pc.1) pc.2 None) tbl) =
  map (fun pc => WriteFile (d ++ pc.1) pc.2) tbl.
Proof. induction tbl as [|pc tbl IH]; cbn; [done|]. by f_equal. Qed.

Lemma scaffold_success (env : Env) (a : ScaffoldArgs) (fs fs' : FS) (u : unit)
    (evs : list Event) :
  let d := path_resolve (process_cwd env) (appName a) in
  scaffold env a fs = (inr u, fs', evs) ->
  fs_calls (after_spawn evs) = plannedCalls d /\
  (forall rel c, (rel, c) ∈ files -> fs' !! (d ++ rel) = Some (File c)).
Proof.
  intros d H. rewrite scaffold_unfold in H. cbv zeta in H. fold d in H.
  pose proof (checkTarget_no_children env (appName a) d fs) as Hc.
  destruct (checkTarget env (appName a) d fs) as [[[e|[]] fs1] ev1]; [discriminate|].
  cbn [snd] in Hc.
  destruct (afterTarget env _ _ _ d fs1) as [[r fs2] ev2] eqn:EA.
  injection H as H1 H2 H3. subst r fs2 evs.
  apply afterTarget_success in EA as (evC & -> & HC & Hfiles).
  split; [|exact Hfiles].
  rewrite after_spawn_app by done.
  rewrite !fs_calls_app, HC. unfold folderEvents, fileEvents, plannedCalls.
  rewrite fs_calls_mkdirs, fs_calls_writes. cbn [app fs_calls omap list_omap].
  by rewrite app_nil_r.
Qed.



(** ** The files of a successful run *)

Lemma files_contents_nonempty : Forall (fun pc : path * string => pc.2 <> EmptyString) files.
Proof. unfold files. repeat (constructor; [by vm_compute|]). constructor. Qed.

(** C2.  After a successful run every one of the seventeen files exists
    under the target directory with a content that is not empty, and
    [public/config.json] parses as an object with the single member
    [apiEndpoint], the string [http://localhost:8000]. *)
Theorem successful_run_leaves_every_file (env : Env) (a : ScaffoldArgs)
    (fs fs' : FS) (evs : list Event) :
  let d := path_resolve (process_cwd env) (appName a) in
  scaffold env a fs = (inr tt, fs', evs) ->
  Forall (fun rel => exists c, fs' !! (d ++ rel) = Some (File c) /\ c <> EmptyString) [
    ["src"; "HomeLayout.jsx"];
    ["src"; "helpers"; "helperFunctions.js"];
    ["src"; "helpers"; "screenMappers.jsx"];
    ["src"; "hooks"; "useGlobalHook.js"];
    ["src"; "redux"; "initialState.js"];
    ["src"; "redux"; "globalSlice.js"];
    ["src"; "redux"; "store.js"];
    ["src"; "external"; "customAxiosInstance.js"];
    ["src"; "external"; "api.js"];
    ["src"; "__tests__"; "setup.js"];
    ["public"; "config.json"];
    ["src"; "styles"; "abstract"; "_colors.scss"];
    ["src"; "styles"; "abstract"; "_variables.scss"];
    ["src"; "styles"; "abstract"; "_mixins.scss"];
    ["src"; "styles"; "_main.scss"];
    ["src"; "App.jsx"];
    ["src"; "main.jsx"]
  ] /\
  exists c,
    fs' !! (d ++ ["public"; "config.json"]) = Some (File c) /\
    parse_json c = Some (JObject [("apiEndpoint", JString "http://localhost:8000")]).
Proof.
  intros d H. apply scaffold_success in H as [_ Hfiles]. fold d in Hfiles. split.
  - change (Forall (fun rel => exists c, fs' !! (d ++ rel) = Some (File c) /\
                                         c <> EmptyString) files.*1).
    apply Forall_fmap, Forall_forall. intros [rel c] Hin. exists c. split.
    + by apply Hfiles.
    + pose proof files_contents_nonempty as Hne.
      rewrite Forall_forall in Hne. by apply (Hne (rel, c)).
  - exists configJson. split.
    + apply Hfiles. unfold files. do 10 right. left.
    + vm_compute. reflexivity.
Qed.

Lemma successful_run_leaves_every_file_witness :
  exists fs' evs,
    scaffold quiet (demo None None) emptyDisk = (inr tt, fs', evs) /\
    exists c,
      fs' !! (["home"; "dev"; "demo"] ++ ["public"; "config.json"]) = Some (File c) /\
      parse_json c = Some (JObject [("apiEndpoint", JString "http://localhost:8000")]).
Proof.
  destruct (scaffold quiet (demo None None) emptyDisk) as [[r fs'] evs] eqn:E.
  assert (Hr : r = inr tt).
  { change r with (r, fs', evs).1.1. rewrite <- E. vm_compute. reflexivity. }
  subst r. exists fs', evs. split; [reflexivity|].
  exact (proj2 (successful_run_leaves_every_file quiet (demo None None)
                  emptyDisk fs' evs E)).
Defined.

(** ** The command line *)

(** C6.  When [scaffold] succeeds the command prints the next steps ([cd]
    into the new directory, then [run dev] with the chosen manager) and the
    process ends with status 0; when [scaffold] throws, the command prints
    the message of the error on the error stream and the process ends with
    status 1. *)
Theorem cli_reports_outcome (env : Env) (name : string) (opts : Options) (fs : FS) :
  let a := {| appName := name;
              packageManager := Some (opt_packageManager opts);
              install := Some (opt_install opts) |} in
  (forall u fs' evs,
     scaffold env a fs = (inr u, fs', evs) ->
     action env name opts fs =
       (0, fs', evs ++ [EvConsoleLog
                          (nl +:+ " Done. Next:" +:+ nl +:+ "  cd " +:+ name +:+ nl +:+
                           "  " +:+ opt_packageManager opts +:+ " run dev" +:+ nl)])) /\
  (forall err fs' evs,
     scaffold env a fs = (inl err, fs', evs) ->
     exists shown,
       action env name opts fs =
         (1, fs', evs ++ [EvConsoleError [PStr (nl +:+ " Scaffold failed:"); shown]]) /\
       (message err <> EmptyString -> shown = PStr (message err))).
Proof.
  intros a. split.
  - intros u fs' evs H. unfold action. fold a. rewrite H. reflexivity.
  - intros err fs' evs H. exists (messageOrError err). split.
    + unfold action. fold a. rewrite H. reflexivity.
    + intros Hm. unfold messageOrError. by destruct (message err).
Qed.

Lemma cli_reports_outcome_witness :
  (action quiet "demo" defaultOptions emptyDisk).1.1 = 0 /\
  exists shown,
    action quiet "demo" defaultOptions populatedDisk =
      (1, populatedDisk,
       [EvPathExists ["home"; "dev"; "demo"] true;
        EvReaddir ["home"; "dev"; "demo"] (inr ["package.json"])] ++
       [EvConsoleError [PStr (nl +:+ " Scaffold failed:"); shown]]) /\
    shown = PStr "Directory 'demo' already exists and is not empty.".
Proof.
  split.
  - destruct (scaffold quiet (demo (Some "npm") (Some true)) emptyDisk)
      as [[r fs'] evs] eqn:E.
    assert (Hr : r = inr tt).
    { change r with (r, fs', evs).1.1. rewrite <- E. vm_compute. reflexivity. }
    subst r.
    rewrite (proj1 (cli_reports_outcome quiet "demo" defaultOptions emptyDisk)
               tt fs' evs E).
    reflexivity.
  - destruct (proj2 (cli_reports_outcome quiet "demo" defaultOptions populatedDisk)
                (Error "Directory 'demo' already exists and is not empty.")
                populatedDisk
                [EvPathExists ["home"; "dev"; "demo"] true;
                 EvReaddir ["home"; "dev"; "demo"] (inr ["package.json"])])
      as (shown & Hact & Hshown); [vm_compute; reflexivity|].
    exists shown. split; [exact Hact|]. apply Hshown. discriminate.
Defined.

(** ** One thing at a time, and nothing after a failure *)

(** C8.  In every run each child process is awaited before anything else
    happens, so no two children overlap and every child started is awaited.
    A run that succeeds has seen no failure.  A run that throws either
    refuses a populated target, having started nothing, or throws the error of
    the first operation that failed, unchanged: everything before it had
    succeeded and nothing is attempted after it, the only operations that can
    follow a failure being the other directory creations of the group issued
    together with it by [createFolders]. *)
Theorem children_in_turn_and_failures_final (env : Env) (a : ScaffoldArgs) (fs : FS) :
  let d := path_resolve (process_cwd env) (appName a) in
  let run := scaffold env a fs in
  one_at_a_time None run.2 = true /\
  spawned run.2 = (exited run.2).*1 /\
  match run.1.1 with
  | inr _ => Forall succeeded run.2
  | inl e =>
      (e = Error ("Directory '" +:+ appName a +:+ "' already exists and is not empty.") /\
       Forall succeeded run.2 /\ spawned run.2 = [] /\ fs_calls run.2 = []) \/
      (exists pre ev post,
         run.2 = pre ++ ev :: post /\ Forall succeeded pre /\ failed_with e ev /\
         (post = [] \/
          Forall (fun x => exists p r, x = EvMkdirp p r /\
                                       strictly_under (d ++ ["src"]) p) (ev :: post)))
  end.
Proof.
  intros d run. split; [apply scaffold_one_at_a_time|].
  split; [apply scaffold_spawned_exited|].
  subst run. rewrite scaffold_unfold. cbv zeta. fold d.
  rewrite checkTarget_unfold.
  assert (Hafter : forall fs1 ev1,
    Forall succeeded ev1 ->
    match (let '(r, fs2, ev2) :=
             afterTarget env (appName a) (default "npm" (packageManager a))
               (default true (install a)) d fs1 in (r, fs2, ev1 ++ ev2)).1.1 with
    | inr _ => Forall succeeded
                 (let '(r, fs2, ev2) :=
                    afterTarget env (appName a) (default "npm" (packageManager a))
                      (default true (install a)) d fs1 in (r, fs2, ev1 ++ ev2)).2
    | inl e => raised d e
                 (let '(r, fs2, ev2) :=
                    afterTarget env (appName a) (default "npm" (packageManager a))
                      (default true (install a)) d fs1 in (r, fs2, ev1 ++ ev2)).2
    end).
  { intros fs1 ev1 H1.
    pose proof (stops_afterTarget env (appName a) (default "npm" (packageManager a))
                  (default true (install a)) d fs1) as Hs.
    destruct (afterTarget env _ _ _ d fs1) as [[[e|u] fs2] ev2]; cbn [fst snd].
    - by apply raised_app.
    - by apply Forall_app_2. }
  destruct (fs !! d) as [n|] eqn:Hd.
  - destruct (listing env d fs) as [e|names].
    + cbn [fst snd]. right.
      exists [EvPathExists d true], (EvReaddir d (inl e)), [].
      split; [done|]. split; [by repeat constructor|]. split; [done | by left].
    + destruct (negb _) eqn:Hn; cbn [fst snd].
      * left. split; [done|]. by repeat constructor.
      * specialize (Hafter fs [EvPathExists d true; EvReaddir d (inr names)]).
        destruct (afterTarget env _ _ _ d fs) as [[[e|u] fs2] ev2]; cbn [fst snd] in *.
        -- right. apply Hafter. by repeat constructor.
        -- apply Hafter. by repeat constructor.
  - destruct (mkdirp_run env d fs) as [(fs1 & -> & _) | (e & fs1 & -> & _)].
    + specialize (Hafter fs1 [EvPathExists d false; EvMkdirp d None]).
      destruct (afterTarget env _ _ _ d fs1) as [[[e|u] fs2] ev2]; cbn [fst snd] in *.
      * right. apply Hafter. by repeat constructor.
      * apply Hafter. by repeat constructor.
    + cbn [fst snd]. right.
      exists [EvPathExists d false], (EvMkdirp d (Some e)), [].
      split; [done|]. split; [by repeat constructor|]. split; [done | by left].
Qed.

(** A failed install is the last thing the run does. *)
Example failed_install_stops_the_run :
  (scaffold installFails (demo None None) emptyDisk).1.1 =
    inl (Error "Command failed with exit code 1: npm install") /\
  (scaffold installFails (demo None None) emptyDisk).2 =
    [ EvPathExists ["home"; "dev"; "demo"] false;
      EvMkdirp ["home"; "dev"; "demo"] None;
      EvSpawn (generator installFails "demo" "npm");
      EvExit (generator installFails "demo" "npm") None;
      EvSpawn {| cmd := "npm"; args := ["install"]; cwd := ["home"; "dev"; "demo"];
                 stdio := "inherit" |};
      EvExit {| cmd := "npm"; args := ["install"]; cwd := ["home"; "dev"; "demo"];
                stdio := "inherit" |}
        (Some (Error "Command failed with exit code 1: npm install")) ].
Proof. split; vm_compute; reflexivity. Qed.

(** A folder that cannot be created: the other folders of its group are
    still asked for, [public] and the files are not. *)
Example denied_folder_stops_after_its_group :
  (scaffold assetsDenied (demo None (Some false)) emptyDisk).1.1 =
    inl (Error "EACCES: permission denied, mkdir") /\
  fs_calls (scaffold assetsDenied (demo None (Some false)) emptyDisk).2 =
    Mkdirp ["home"; "dev"; "demo"] ::
    map (fun rel => Mkdirp (["home"; "dev"; "demo"] ++ rel)) folders.
Proof. split; vm_compute; reflexivity. Qed.

(** ** Where a run works *)

Lemma after_spawn_app_quiet (a b : list Event) :
  Forall (fun ev => is_child_event ev = false) a ->
  after_spawn (a ++ b) = after_spawn b.
Proof.
  induction 1 as [|ev a Hev _ IH]; [done|].
  destruct ev; done.
Qed.

Lemma afterTarget_events (env : Env) (name pm : string) (inst : bool) (d : path) :
  traces (Forall (child_or_under d)) (afterTarget env name pm inst d).
Proof.
  assert (Happ : forall x y : list Event,
    Forall (child_or_under d) x -> Forall (child_or_under d) y ->
    Forall (child_or_under d) (x ++ y)) by (intros x y; apply Forall_app_2).
  assert (Hch : forall c r, Forall (child_or_under d) [EvSpawn c; EvExit c r]).
  { intros c r. repeat constructor; by left. }
  unfold afterTarget. apply traces_bind; [done | | intros _].
  { by apply sound_createVite. }
  apply traces_bind; [done | | intros _].
  { apply sound_installDeps; [constructor | done | done]. }
  intros fs1. eapply Forall_impl; [apply under_later|]. intros ev Hev. by right.
Qed.

Lemma child_or_under_path (d : path) (ev : Event) (p : path) :
  child_or_under d ev -> fs_path ev = Some p -> strictly_under d p.
Proof. intros [H | H] Hp; destruct ev; cbn in *; try done; by simplify_eq. Qed.

(** C10, as the code has it.  Every path that [scaffold] hands to the file
    system is the target directory or lies below it, and after the generator
    has been started (the folders and the files) strictly below it.  Outside the target
    directory the run changes nothing of its own, with one exception: the
    missing ancestors of the target directory, which the creation of the
    target by [checkTarget] creates. *)
Theorem own_operations_stay_in_target (env : Env) (a : ScaffoldArgs) (fs : FS) :
  let d := path_resolve (process_cwd env) (appName a) in
  let run := scaffold env a fs in
  Forall (fun ev => forall p, fs_path ev = Some p -> within d p) run.2 /\
  Forall (fun ev => forall p, fs_path ev = Some p -> strictly_under d p)
    (after_spawn run.2) /\
  forall q,
    ~ within d q ->
    fs !! q <> None \/ ~ within q d ->
    (forall child fs0, (child_process env child fs0).1 !! q = fs0 !! q) ->
    run.1.2 !! q = fs !! q.
Proof.
  intros d run.
  assert (Hcheck : Forall (fun ev => forall p, fs_path ev = Some p -> p = d)
                     (checkTarget env (appName a) d fs).2).
  { rewrite checkTarget_unfold.
    destruct (fs !! d) as [n|]; [destruct (listing env d fs) as [e|names]|]; cbn [snd].
    - repeat constructor; cbn; congruence.
    - repeat constructor; cbn; congruence.
    - destruct (mkdirp_run env d fs) as [(fs1 & -> & _) | (e & fs1 & -> & _)];
        repeat constructor; cbn; congruence. }
  pose proof (checkTarget_no_children env (appName a) d fs) as Hquiet.
  pose proof (fun fs1 => afterTarget_events env (appName a)
                (default "npm" (packageManager a)) (default true (install a)) d fs1)
    as Hafter.
  pose proof (fun fs1 => afterTarget_starts env (appName a)
                (default "npm" (packageManager a)) (default true (install a)) d fs1)
    as Hstart.
  split; [|split].
  - subst run. rewrite scaffold_unfold. cbv zeta. fold d.
    assert (H1 : Forall (fun ev => forall p, fs_path ev = Some p -> within d p)
                   (checkTarget env (appName a) d fs).2).
    { eapply Forall_impl; [exact Hcheck|]. intros ev H p Hp.
      rewrite (H p Hp). apply within_refl. }
    destruct (checkTarget env (appName a) d fs) as [[[e|[]] fs1] ev1]; [done|].
    specialize (Hafter fs1).
    destruct (afterTarget env _ _ _ d fs1) as [[r fs2] ev2]. cbn [snd] in *.
    apply Forall_app_2; [done|]. eapply Forall_impl; [exact Hafter|].
    intros ev H p Hp. eapply strictly_under_within, child_or_under_path; eauto.
  - subst run. rewrite scaffold_unfold. cbv zeta. fold d.
    destruct (checkTarget env (appName a) d fs) as [[[e|[]] fs1] ev1]; cbn [snd] in *.
    { apply no_children_spawned in Hquiet as (_ & _ & ->). constructor. }
    specialize (Hafter fs1). destruct (Hstart fs1) as (r & fs2 & rest & E).
    rewrite E in Hafter |- *. cbn [snd] in *.
    rewrite after_spawn_app by done. apply Forall_cons in Hafter as [_ Hafter].
    eapply Forall_impl; [exact Hafter|].
    intros ev H p Hp. eapply child_or_under_path; eauto.
  - intros q Hout Hanc Hchild.
    by apply (keeps_scaffold env a q (fs !! q) Hout Hanc Hchild fs).
Qed.

Lemma own_operations_stay_in_target_witness :
  ~ within (path_resolve (process_cwd quiet) "demo") ["home"; "dev"; "notes.txt"] /\
  (scaffold quiet (demo None None) emptyDisk).1.2 !! ["home"; "dev"; "notes.txt"] =
  emptyDisk !! ["home"; "dev"; "notes.txt"].
Proof.
  assert (Hout : ~ within (path_resolve (process_cwd quiet) "demo")
                   ["home"; "dev"; "notes.txt"]).
  { intros [rest H]. vm_compute in H. discriminate. }
  split; [exact Hout|].
  apply (proj2 (proj2 (own_operations_stay_in_target quiet (demo None None) emptyDisk))).
  - exact Hout.
  - right. intros [rest H]. vm_compute in H. discriminate.
  - reflexivity.
Defined.

(** C10 as stated fails: asked for [apps/demo] where [apps] does not exist,
    [scaffold] creates [apps], which is outside the target directory
    [apps/demo].  The children of [quiet] leave the file system alone, so the
    new directory is the work of [scaffold] itself. *)
Lemma nested_target_creates_its_parent :
  path_resolve (process_cwd quiet) "apps/demo" = ["home"; "dev"; "apps"; "demo"] /\
  ~ within ["home"; "dev"; "apps"; "demo"] ["home"; "dev"; "apps"] /\
  emptyDisk !! ["home"; "dev"; "apps"] = None /\
  (scaffold quiet {| appName := "apps/demo"; packageManager := None; install := None |}
     emptyDisk).1.2 !! ["home"; "dev"; "apps"] = Some Dir /\
  (scaffold quiet {| appName := "apps/demo"; packageManager := None; install := None |}
     emptyDisk).1.1 = inr tt.
Proof.
  split; [reflexivity|]. split.
  - intros [rest H]. cbn in H. discriminate.
  - split; [vm_compute; reflexivity|]. split; vm_compute; reflexivity.
Qed.

(** * More of the scaffolder *)

(** ** A target that cannot be used *)



(** ** How the children are started *)

Lemma ran_in_order_prefix (plan : list Command) (r : JsError + unit)
    (xs : list (Command * option JsError)) :
  ran_in_order plan r xs -> xs.*1 `prefix_of` plan.
Proof.
  revert xs. induction plan as [|c plan IH]; intros xs H.
  - destruct xs; [by exists [] | done].
  - destruct xs as [|[c' [e|]] xs]; cbn in H; [done| |].
    + destruct xs; [|done]. destruct H as [-> _]. by exists plan.
    + destruct H as [-> H]. cbn. by apply prefix_cons, IH.
Qed.

(** X9.  Every child process of a run is started through [run]: with
    inherited standard streams, and in the working directory of the process
    (the generator) or in the target directory (the install commands); there
    are at most four of them. *)
Theorem children_inherit_the_streams (env : Env) (a : ScaffoldArgs) (fs : FS) :
  let d := path_resolve (process_cwd env) (appName a) in
  let children := spawned (scaffold env a fs).2 in
  Forall (fun c => stdio c = "inherit" /\ (cwd c = process_cwd env \/ cwd c = d))
    children /\
  length children <= 4.
Proof.
  intros d children. subst children. rewrite scaffold_spawned_exited.
  destruct (scaffold_children env a fs) as [(_ & -> & _) | [_ Hr]].
  { split; [constructor | cbn; lia]. }
  apply ran_in_order_prefix in Hr as [rest Hr].
  set (xs := (exited (scaffold env a fs).2).*1) in *. fold d in Hr.
  assert (Hplan : Forall (fun c => stdio c = "inherit" /\
                                   (cwd c = process_cwd env \/ cwd c = d))
                    (xs ++ rest) /\ length (xs ++ rest) <= 4).
  { rewrite <- Hr. destruct (default true (install a)); cbn; (split; [|lia]);
      repeat (apply Forall_cons; split;
              [split; [reflexivity | (by left) || (by right)] |]);
      by apply Forall_nil. }
  destruct Hplan as [Hall Hlen]. split.
  - by apply Forall_app in Hall as [? _].
  - rewrite length_app in Hlen. lia.
Qed.

(** ** An unknown package manager without installation *)

(** X8.  With installation turned off, a package manager that is none of
    [pnpm], [yarn] and [bun] makes no difference at all: the run is the run
    of [npm], event for event. *)
Theorem unknown_manager_without_install_is_npm (env : Env) (name pm : string)
    (fs : FS) :
  pm <> "pnpm" -> pm <> "yarn" -> pm <> "bun" ->
  scaffold env {| appName := name; packageManager := Some pm;
                  install := Some false |} fs =
  scaffold env {| appName := name; packageManager := Some "npm";
                  install := Some false |} fs.
Proof.
  intros H1 H2 H3. rewrite !scaffold_unfold. cbv zeta. cbn [appName packageManager install default].
  destruct (checkTarget env name _ fs) as [[[e|[]] fs1] ev1]; [done|].
  unfold afterTarget. rewrite !bind_unfold, !createVite_run. unfold id.
  rewrite (generator_unknown env name pm H1 H2 H3).
  rewrite (generator_unknown env name "npm") by done.
  reflexivity.
Qed.

Lemma unknown_manager_without_install_is_npm_witness :
  scaffold quiet (demo (Some "deno") (Some false)) emptyDisk =
  scaffold quiet (demo (Some "npm") (Some false)) emptyDisk.
Proof.
  apply (unknown_manager_without_install_is_npm quiet "demo" "deno" emptyDisk);
    discriminate.
Defined.

(** ** The folders and the files, whatever the outcome *)

Lemma mkdirs_keeps (rf : path -> FS -> option JsError) (segs : list string)
    (base : path) (fs fs' : FS) (o : option JsError) (q : path) (n : node) :
  mkdirs rf base segs fs = (fs', o) -> fs !! q = Some n -> fs' !! q = Some n.
Proof.
  intros H Hq. destruct (mkdirs_frame _ _ _ _ _ _ q H) as [-> | (Hn & _)]; congruence.
Qed.

Lemma mkdirp_makes (env : Env) (p : path) (fs fs' : FS) (q : path) :
  mkdirp env p fs = (inr tt, fs', [EvMkdirp p None]) ->
  q <> [] -> within q p -> fs' !! q = Some Dir.
Proof.
  intros H Hq Hw.
  destruct (mkdirp_run env p fs) as [(fs1 & E & Hmk) | (e & fs1 & E & _)];
    rewrite E in H; [|discriminate].
  injection H as <-. eapply mkdirs_dirs; [exact Hmk | by exists q | done].
Qed.

Lemma keeps_mkdirAll (env : Env) (d : path) (rels : list path) (q : path) (n : node) :
  keeps q (Some n) (mkdirAll env d rels).
Proof.
  apply keeps_promise_all, Forall_map, Forall_forall. intros rel _.
  apply keeps_mkdirp. by left.
Qed.

Lemma keeps_writeAll (env : Env) (d : path) (tbl : list (path * string)) (s : string)
    (q : path) (v : option node) :
  (forall rel, rel ∈ tbl.*1 -> q <> d ++ rel) ->
  keeps q v (writeAll env d tbl (console_log s)).
Proof.
  induction tbl as [|[p c] tbl IH]; intros H; cbn.
  - by intros fs.
  - apply keeps_bind; [|intros _; apply IH].
    + apply keeps_writeFile, H. cbn. left.
    + intros rel Hrel. apply H. cbn. by right.
Qed.

Lemma mkdirAll_events (env : Env) (d : path) (rels : list path) (fs : FS) :
  Forall (fun ev => exists rel r, rel ∈ rels /\ ev = EvMkdirp (d ++ rel) r)
    (mkdirAll env d rels fs).2.
Proof.
  revert fs. induction rels as [|rel rels IH]; intros fs; [by apply Forall_nil|].
  unfold mkdirAll. cbn [map promise_all]. fold (mkdirAll env d rels).
  assert (Hrest : forall fs1, Forall
            (fun ev => exists rel0 r, rel0 ∈ rel :: rels /\ ev = EvMkdirp (d ++ rel0) r)
            (mkdirAll env d rels fs1).2).
  { intros fs1. eapply Forall_impl; [apply IH|].
    intros ev (rel0 & r & Hin & ->). exists rel0, r. split; [by right | done]. }
  destruct (mkdirp_run env (d ++ rel) fs) as [(fs1 & -> & _) | (e & fs1 & -> & _)].
  - specialize (Hrest fs1). destruct (mkdirAll env d rels fs1) as [[r' fs2] ev2].
    cbn in *. apply Forall_cons. split; [|done]. exists rel, None. split; [left | done].
  - specialize (Hrest fs1). destruct (mkdirAll env d rels fs1) as [[r' fs2] ev2].
    cbn in *. apply Forall_cons. split; [|done]. exists rel, (Some e). split; [left | done].
Qed.

(** A directory that the group has created is there when the group is done,
    with all the directories above it. *)
Lemma mkdirAll_made (env : Env) (d : path) (rels : list path) (fs : FS) (p q : path) :
  EvMkdirp p None ∈ (mkdirAll env d rels fs).2 ->
  q <> [] -> within q p ->
  (mkdirAll env d rels fs).1.2 !! q = Some Dir.
Proof.
  intros Hin Hq Hw. revert fs Hin. induction rels as [|rel rels IH]; intros fs Hin.
  { unfold mkdirAll in Hin. cbn in Hin. by apply elem_of_nil in Hin. }
  unfold mkdirAll in *. cbn [map promise_all] in *. fold (mkdirAll env d rels) in *.
  destruct (mkdirp_run env (d ++ rel) fs) as [(fs1 & E & _) | (e & fs1 & E & _)];
    rewrite E in Hin |- *.
  - pose proof (keeps_mkdirAll env d rels q Dir fs1) as Hkeep.
    specialize (IH fs1). destruct (mkdirAll env d rels fs1) as [[r' fs2] ev2].
    cbn in *. apply elem_of_cons in Hin as [[= ->] | Hin]; [|by apply IH].
    apply Hkeep. by eapply mkdirp_makes.
  - specialize (IH fs1). destruct (mkdirAll env d rels fs1) as [[r' fs2] ev2].
    cbn in *. apply elem_of_cons in Hin as [[=] | Hin]. by apply IH.
Qed.

Lemma writeAll_events (env : Env) (d : path) (tbl : list (path * string)) (s : string)
    (fs : FS) :
  Forall (fun ev => (exists rel c r, rel ∈ tbl.*1 /\ ev = EvWriteFile (d ++ rel) c r) \/
                    ev = EvConsoleLog s)
    (writeAll env d tbl (console_log s) fs).2.
Proof.
  revert fs. induction tbl as [|[p c] tbl IH]; intros fs.
  { cbn. apply Forall_cons. split; [by right | by apply Forall_nil]. }
  cbn [writeAll foldr]. fold (writeAll env d tbl (console_log s)).
  rewrite bind_unfold. cbn [fst snd].
  assert (Hrest : forall fs1, Forall
            (fun ev => (exists rel c0 r, rel ∈ ((p, c) :: tbl).*1 /\
                                         ev = EvWriteFile (d ++ rel) c0 r) \/
                       ev = EvConsoleLog s)
            (writeAll env d tbl (console_log s) fs1).2).
  { intros fs1. eapply Forall_impl; [apply IH|].
    intros ev [(rel & c0 & r & Hin & ->) | ->]; [left | by right].
    exists rel, c0, r. split; [by right | done]. }
  destruct (writeFile_run env (d ++ p) c fs) as [-> | (e & ->)].
  - specialize (Hrest (<[d ++ p := File c]> fs)).
    destruct (writeAll env d tbl _ _) as [[r' fs2] ev2]. cbn in *.
    apply Forall_cons. split; [|done]. left. exists p, c, None. split; [left | done].
  - apply Forall_cons. split; [|by apply Forall_nil].
    left. exists p, c, (Some e). split; [left | done].
Qed.

(** A file that has been written is there, with its content, when the writes
    are done. *)
Lemma writeAll_persist (env : Env) (d : path) (tbl : list (path * string))
    (s : string) (fs : FS) (p : path) (c : string) :
  NoDup tbl.*1 ->
  EvWriteFile p c None ∈ (writeAll env d tbl (console_log s) fs).2 ->
  (writeAll env d tbl (console_log s) fs).1.2 !! p = Some (File c).
Proof.
  intros Hnd. revert fs. induction tbl as [|[p0 c0] tbl IH]; intros fs Hin.
  { cbn in Hin. apply list_elem_of_singleton in Hin. discriminate. }
  cbn [fmap list_fmap fst] in Hnd. apply NoDup_cons in Hnd as [Hp Hnd].
  cbn [writeAll foldr] in *. fold (writeAll env d tbl (console_log s)) in *.
  rewrite bind_unfold in *. cbn [fst snd] in *.
  destruct (writeFile_run env (d ++ p0) c0 fs) as [E | (e & E)]; rewrite E in Hin |- *.
  - pose proof (keeps_writeAll env d tbl s (d ++ p0) (Some (File c0))) as Hkeep.
    specialize (IH Hnd (<[d ++ p0 := File c0]> fs)).
    specialize (Hkeep ltac:(intros rel Hrel Heq; apply app_inv_head in Heq as <-; done)
                      (<[d ++ p0 := File c0]> fs) (lookup_insert_eq _ _ _)).
    destruct (writeAll env d tbl _ _) as [[r' fs2] ev2]. cbn in *.
    apply elem_of_cons in Hin as [[= -> ->] | Hin]; [done | by apply IH].
  - cbn in Hin. apply list_elem_of_singleton in Hin. discriminate.
Qed.

(** The tip is printed when the writes have all succeeded, and only then. *)
Lemma writeAll_console (env : Env) (d : path) (tbl : list (path * string))
    (s : string) (fs : FS) :
  console (writeAll env d tbl (console_log s) fs).2 =
  match (writeAll env d tbl (console_log s) fs).1.1 with
  | inr _ => [EvConsoleLog s]
  | inl _ => []
  end.
Proof.
  revert fs. induction tbl as [|[p c] tbl IH]; intros fs; [done|].
  cbn [writeAll foldr]. fold (writeAll env d tbl (console_log s)).
  rewrite bind_unfold. cbn [fst snd].
  destruct (writeFile_run env (d ++ p) c fs) as [-> | (e & ->)]; [|done].
  specialize (IH (<[d ++ p := File c]> fs)).
  destruct (writeAll env d tbl _ _) as [[r' fs2] ev2]. cbn in *. exact IH.
Qed.

(** No file of the table lies on the way to a folder. *)
Lemma folder_is_no_file (d q : path) (relF relW : path) :
  relF ∈ allFolders -> relW ∈ files.*1 -> within q (d ++ relF) -> q <> d ++ relW.
Proof.
  intros HF HW [x Hx] ->. rewrite <- app_assoc in Hx. apply app_inv_head in Hx.
  assert (Hpre : relW `prefix_of` relF) by (by exists x).
  assert (Hall : Forall (fun w => Forall (fun f => ~ w `prefix_of` f) allFolders)
                   files.*1).
  { apply (bool_decide_unpack _). vm_compute. reflexivity. }
  rewrite Forall_forall in Hall. specialize (Hall relW HW).
  rewrite Forall_forall in Hall. by apply (Hall relF HF).
Qed.

Lemma foldersAndFiles_unfold (env : Env) (d : path) (fs : FS) :
  foldersAndFiles env d fs =
  match mkdirAll env d folders fs with
  | (inl e, fsF, evF) => (inl e, fsF, evF)
  | (inr _, fsF, evF) =>
      match mkdirp env (d ++ ["public"]) fsF with
      | (inl e, fsP, evP) => (inl e, fsP, evF ++ evP)
      | (inr _, fsP, evP) =>
          match writeAll env d files (console_log finalTip) fsP with
          | (r, fsW, evW) => (r, fsW, (evF ++ evP) ++ evW)
          end
      end
  end.
Proof.
  unfold foldersAndFiles. rewrite bind_unfold, createFolders_table, bind_unfold.
  destruct (mkdirAll env d folders fs) as [[[e|u] fsF] evF]; [done|].
  destruct (mkdirp env (d ++ ["public"]) fsF) as [[[e|u'] fsP] evP]; [done|].
  by rewrite writeFiles_table.
Qed.

Lemma mkdirs_no_console (evs : list Event) :
  Forall (fun ev => exists p r, ev = EvMkdirp p r) evs -> console evs = [].
Proof. induction 1 as [|ev evs (p & r & ->) _ IH]; [done | exact IH]. Qed.

Lemma in_allFolders (rel : path) : rel ∈ folders -> rel ∈ allFolders.
Proof. intros H. unfold allFolders. apply elem_of_app. by left. Qed.

Lemma public_in_allFolders : ["public"] ∈ allFolders.
Proof. unfold allFolders. apply elem_of_app. right. left. Qed.

(** Whatever the outcome, what has been created or written is there at the
    end, and the tip is printed on success only. *)
Lemma foldersAndFiles_persist (env : Env) (d : path) (fs : FS) :
  (forall p c, EvWriteFile p c None ∈ (foldersAndFiles env d fs).2 ->
               (foldersAndFiles env d fs).1.2 !! p = Some (File c)) /\
  (forall p q, EvMkdirp p None ∈ (foldersAndFiles env d fs).2 ->
               q <> [] -> within q p ->
               (foldersAndFiles env d fs).1.2 !! q = Some Dir) /\
  console (foldersAndFiles env d fs).2 =
    match (foldersAndFiles env d fs).1.1 with
    | inr _ => [EvConsoleLog finalTip]
    | inl _ => []
    end.
Proof.
  rewrite foldersAndFiles_unfold.
  pose proof (mkdirAll_events env d folders fs) as HevF.
  pose proof (fun p q => mkdirAll_made env d folders fs p q) as HmadeF.
  assert (HnoWrite : forall p c, EvWriteFile p c None ∉ (mkdirAll env d folders fs).2).
  { intros p c Hin. rewrite Forall_forall in HevF.
    destruct (HevF _ Hin) as (rel & r & _ & [=]). }
  assert (HconF : console (mkdirAll env d folders fs).2 = []).
  { apply mkdirs_no_console. eapply Forall_impl; [exact HevF|].
    intros ev (rel & r & _ & ->). eauto. }
  destruct (mkdirAll env d folders fs) as [[[e|u] fsF] evF]; cbn [fst snd] in *.
  { split; [intros p c Hin; by apply HnoWrite in Hin|]. split; [exact HmadeF | done]. }
  pose proof (fun q n => keeps_mkdirp env q (d ++ ["public"]) (Some n)
                           ltac:(by left) fsF) as HkeepP.
  destruct (mkdirp_run env (d ++ ["public"]) fsF)
    as [(fsP & E & _) | (e & fsP & E & _)]; rewrite E in HkeepP |- *.
  2:{ cbn [fst snd] in *. split; [|split].
      - intros p c Hin. apply elem_of_app in Hin as [Hin | Hin].
        + by apply HnoWrite in Hin.
        + apply list_elem_of_singleton in Hin. discriminate.
      - intros p q Hin Hq Hw. apply elem_of_app in Hin as [Hin | Hin].
        + apply HkeepP. by eapply HmadeF.
        + apply list_elem_of_singleton in Hin. discriminate.
      - unfold console in *. by rewrite omap_app, HconF. }
  pose proof (writeAll_events env d files finalTip fsP) as HevW.
  pose proof (fun p c => writeAll_persist env d files finalTip fsP p c files_NoDup)
    as HperW.
  pose proof (writeAll_console env d files finalTip fsP) as HconW.
  pose proof (fun q n H => keeps_writeAll env d files finalTip q (Some n) H fsP)
    as HkeepW.
  destruct (writeAll env d files (console_log finalTip) fsP) as [[r fsW] evW].
  cbn [fst snd] in *. split; [|split].
  - intros p c Hin. apply elem_of_app in Hin as [Hin | Hin]; [|by apply HperW].
    apply elem_of_app in Hin as [Hin | Hin].
    + by apply HnoWrite in Hin.
    + apply list_elem_of_singleton in Hin. discriminate.
  - intros p q Hin Hq Hw.
    assert (Hcase : exists rel, rel ∈ allFolders /\ p = d ++ rel /\
                                fsP !! q = Some Dir).
    { apply elem_of_app in Hin as [Hin | Hin].
      - apply elem_of_app in Hin as [Hin | Hin].
        + rewrite Forall_forall in HevF.
          destruct (HevF _ Hin) as (rel & r0 & Hrel & [= -> _]).
          exists rel. split; [by apply in_allFolders|]. split; [done|].
          apply HkeepP. by eapply HmadeF.
        + apply list_elem_of_singleton in Hin. injection Hin as ->.
          exists ["public"]. split; [apply public_in_allFolders|]. split; [done|].
          by eapply mkdirp_makes.
      - rewrite Forall_forall in HevW.
        destruct (HevW _ Hin) as [(rel & c & r0 & _ & [=]) | [=]]. }
    destruct Hcase as (rel & Hrel & -> & HP).
    apply HkeepW; [|done]. intros relW HrelW.
    by eapply folder_is_no_file.
  - unfold console in *. rewrite !omap_app, HconF, HconW. done.
Qed.

(** ** A run, phase by phase *)

(** After the target check: children only, then the folders and files, or
    an error from one of the children. *)
Lemma afterTarget_cases (env : Env) (name pm : string) (inst : bool) (d : path)
    (fs : FS) :
  exists evC fsC,
    Forall (fun ev => is_child_event ev = true) evC /\
    ((exists e, afterTarget env name pm inst d fs =
                  (inl e, fsC, EvSpawn (generator env name pm) :: evC)) \/
     (Forall succeeded evC /\
      afterTarget env name pm inst d fs =
        ((foldersAndFiles env d fsC).1.1, (foldersAndFiles env d fsC).1.2,
         EvSpawn (generator env name pm) :: evC ++ (foldersAndFiles env d fsC).2))).
Proof.
  assert (Hstops : forall fs1, match installDeps env pm inst d fs1 with
                               | (inr _, _, evI) => Forall succeeded evI
                               | (inl _, _, _) => True
                               end).
  { intros fs1.
    assert (Hs : stops d (installDeps env pm inst d)).
    { unfold installDeps. destruct inst; [|apply stops_ret].
      do 2 (apply stops_bind; [apply stops_await_run | intros _]).
      apply stops_await_run. }
    specialize (Hs fs1). by destruct (installDeps env pm inst d fs1) as [[[e|u] ?] ?]. }
  unfold afterTarget. rewrite bind_unfold, createVite_run.
  destruct (child_process env (generator env name pm) fs) as [fs1 [e|]].
  { exists [EvExit (generator env name pm) (Some e)], fs1.
    split; [by repeat constructor|]. left. by exists e. }
  rewrite bind_unfold.
  assert (HI : Forall (fun ev => is_child_event ev = true)
                 (installDeps env pm inst d fs1).2).
  { apply (sound_installDeps (Forall (fun ev => is_child_event ev = true))).
    - constructor.
    - intros x y. apply Forall_app_2.
    - intros c r. by repeat constructor. }
  fold (foldersAndFiles env d). specialize (Hstops fs1).
  destruct (installDeps env pm inst d fs1) as [[[e|[]] fs2] evI]; cbn [snd] in HI.
  - exists (EvExit (generator env name pm) None :: evI), fs2.
    split; [by constructor|]. left. by exists e.
  - exists (EvExit (generator env name pm) None :: evI), fs2.
    split; [by constructor|]. right. split; [by constructor|].
    destruct (foldersAndFiles env d fs2) as [[r fs3] ev3]. cbn [fst snd].
    reflexivity.
Qed.

Lemma checkTarget_events (env : Env) (name : string) (d : path) (fs : FS) :
  Forall (fun ev => exists r, ev = EvPathExists d r \/ (exists l, ev = EvReaddir d l) \/
                              (exists o, ev = EvMkdirp d o))
    (checkTarget env name d fs).2.
Proof.
  rewrite checkTarget_unfold.
  destruct (fs !! d) as [n|]; [destruct (listing env d fs) as [e|names]|]; cbn [snd].
  - repeat constructor; exists true; eauto.
  - repeat constructor; exists true; eauto.
  - destruct (mkdirp_run env d fs) as [(fs1 & -> & _) | (e & fs1 & -> & _)];
      repeat constructor; exists false; eauto.
Qed.

Lemma children_only (evs : list Event) :
  Forall (fun ev => is_child_event ev = true) evs ->
  console evs = [] /\ fs_calls evs = [] /\
  (forall p c r, EvWriteFile p c r ∉ evs) /\ (forall p r, EvMkdirp p r ∉ evs).
Proof.
  induction 1 as [|ev evs Hev _ (IH1 & IH2 & IH3 & IH4)].
  { repeat split; try done; intros; apply not_elem_of_nil. }
  destruct ev; try done; cbn; (split; [done|]); (split; [done|]);
    split; intros; (apply not_elem_of_cons; split; [done | auto]).
Qed.

(** The shape of every run. *)
Lemma scaffold_cases (env : Env) (a : ScaffoldArgs) (fs : FS) :
  let d := path_resolve (process_cwd env) (appName a) in
  let g := generator env (appName a) (default "npm" (packageManager a)) in
  let check := checkTarget env (appName a) d fs in
  ((exists e, check.1.1 = inl e) /\ scaffold env a fs = check) \/
  (exists evC fsC,
     check.1.1 = inr tt /\
     Forall (fun ev => is_child_event ev = true) evC /\
     ((exists e, scaffold env a fs = (inl e, fsC, check.2 ++ EvSpawn g :: evC)) \/
      (Forall succeeded evC /\
       scaffold env a fs =
         ((foldersAndFiles env d fsC).1.1, (foldersAndFiles env d fsC).1.2,
          check.2 ++ EvSpawn g :: evC ++ (foldersAndFiles env d fsC).2)))).
Proof.
  intros d g check. subst check. rewrite scaffold_unfold. cbv zeta. fold d.
  destruct (checkTarget env (appName a) d fs) as [[[e|[]] fs1] ev1]; cbn [fst snd].
  { left. split; [by exists e | done]. }
  right.
  destruct (afterTarget_cases env (appName a) (default "npm" (packageManager a))
              (default true (install a)) d fs1)
    as (evC & fsC & HC & [[e E] | [Hok E]]);
    rewrite E; exists evC, fsC; (split; [done|]); (split; [done|]).
  - left. by exists e.
  - by right.
Qed.

Lemma strictly_under_irrefl (d : path) : ~ strictly_under d d.
Proof.
  intros (rest & Hrest & H). rewrite <- (app_nil_r d) in H at 1.
  apply app_inv_head in H. by subst.
Qed.

Lemma checkTarget_quiet (env : Env) (name : string) (d : path) (fs : FS) :
  console (checkTarget env name d fs).2 = [] /\
  (forall p c r, EvWriteFile p c r ∉ (checkTarget env name d fs).2) /\
  (forall ev p, ev ∈ (checkTarget env name d fs).2 -> fs_path ev = Some p -> p = d).
Proof.
  pose proof (checkTarget_events env name d fs) as H.
  induction H as [|ev evs (r & [-> | [[l ->] | [o ->]]]) _ (IH1 & IH2 & IH3)].
  - split; [done|]. split; intros; [apply not_elem_of_nil | by apply elem_of_nil in H].
  - split; [done|]. split.
    + intros. apply not_elem_of_cons. split; [done | apply IH2].
    + intros ev p [-> | Hin]%elem_of_cons Hp; [by injection Hp | by eapply IH3].
  - split; [done|]. split.
    + intros. apply not_elem_of_cons. split; [done | apply IH2].
    + intros ev p [-> | Hin]%elem_of_cons Hp; [by injection Hp | by eapply IH3].
  - split; [done|]. split.
    + intros. apply not_elem_of_cons. split; [done | apply IH2].
    + intros ev p [-> | Hin]%elem_of_cons Hp; [by injection Hp | by eapply IH3].
Qed.

(** What [scaffold] has created or written below the target is there at the
    end of the run, however the run ends. *)
Lemma scaffold_keeps_what_it_made (env : Env) (a : ScaffoldArgs) (fs : FS) :
  (forall p c, EvWriteFile p c None ∈ (scaffold env a fs).2 ->
               (scaffold env a fs).1.2 !! p = Some (File c)) /\
  (forall p q, EvMkdirp p None ∈ after_spawn (scaffold env a fs).2 ->
               q <> [] -> within q p -> (scaffold env a fs).1.2 !! q = Some Dir).
Proof.
  set (d := path_resolve (process_cwd env) (appName a)).
  pose proof (checkTarget_quiet env (appName a) d fs) as (_ & HnoW & _).
  pose proof (checkTarget_no_children env (appName a) d fs) as Hquiet.
  destruct (scaffold_cases env a fs)
    as [[_ ->] | (evC & fsC & _ & HC & [[e ->] | [_ ->]])];
    fold d; cbn [fst snd].
  - split; [intros p c Hin; by apply HnoW in Hin|].
    apply no_children_spawned in Hquiet as (_ & _ & ->).
    intros p q Hin. by apply elem_of_nil in Hin.
  - apply children_only in HC as (_ & _ & HCw & HCm). split.
    + intros p c [Hin | Hin]%elem_of_app; [by apply HnoW in Hin|].
      apply elem_of_cons in Hin as [[=] | Hin]. by apply HCw in Hin.
    + rewrite after_spawn_app by done. intros p q Hin. by apply HCm in Hin.
  - destruct (foldersAndFiles_persist env d fsC) as (HW & HM & _).
    apply children_only in HC as (_ & _ & HCw & HCm). split.
    + intros p c [Hin | Hin]%elem_of_app; [by apply HnoW in Hin|].
      apply elem_of_cons in Hin as [[=] | Hin].
      apply elem_of_app in Hin as [Hin | Hin]; [by apply HCw in Hin | by apply HW].
    + rewrite after_spawn_app by done. intros p q [Hin | Hin]%elem_of_app.
      * by apply HCm in Hin.
      * by apply HM.
Qed.

Lemma scaffold_success_events (env : Env) (a : ScaffoldArgs) (fs fs' : FS) (u : unit)
    (evs : list Event) :
  let d := path_resolve (process_cwd env) (appName a) in
  scaffold env a fs = (inr u, fs', evs) ->
  exists evC,
    after_spawn evs =
    evC ++ folderEvents d ++ fileEvents d ++ [EvConsoleLog finalTip].
Proof.
  intros d H. rewrite scaffold_unfold in H. cbv zeta in H. fold d in H.
  pose proof (checkTarget_no_children env (appName a) d fs) as Hc.
  destruct (checkTarget env (appName a) d fs) as [[[e|[]] fs1] ev1]; [discriminate|].
  cbn [snd] in Hc.
  destruct (afterTarget env _ _ _ d fs1) as [[r fs2] ev2] eqn:EA.
  injection H as H1 H2 H3. subst r fs2 evs.
  apply afterTarget_success in EA as (evC & -> & _ & _).
  exists evC. by rewrite after_spawn_app.
Qed.

(** After a successful run every folder is a directory, and so is every
    directory above it. *)
Lemma scaffold_success_folders (env : Env) (a : ScaffoldArgs) (fs fs' : FS) (u : unit)
    (evs : list Event) (rel q : path) :
  let d := path_resolve (process_cwd env) (appName a) in
  scaffold env a fs = (inr u, fs', evs) ->
  rel ∈ allFolders -> q <> [] -> within q (d ++ rel) ->
  fs' !! q = Some Dir.
Proof.
  intros d H Hrel Hq Hw.
  destruct (scaffold_success_events env a fs fs' u evs H) as [evC Hev].
  destruct (scaffold_keeps_what_it_made env a fs) as [_ HM].
  rewrite H in HM. cbn [fst snd] in HM. apply (HM (d ++ rel)); [|done..].
  rewrite Hev. fold d. apply elem_of_app. right. apply elem_of_app. left.
  unfold folderEvents. fold allFolders.
  apply list_elem_of_In, in_map_iff. exists rel. split; [done|].
  by apply list_elem_of_In.
Qed.

(** ** What is on the disk after a run *)

(** X4.  After a successful run each of the ten folders is a directory under
    the target, together with every directory above it: the target itself,
    [src], [src/components], [src/styles]. *)
Theorem successful_run_leaves_every_folder (env : Env) (a : ScaffoldArgs)
    (fs fs' : FS) (evs : list Event) :
  let d := path_resolve (process_cwd env) (appName a) in
  scaffold env a fs = (inr tt, fs', evs) ->
  Forall (fun rel => forall q, q <> [] -> within q (d ++ rel) -> fs' !! q = Some Dir) [
    ["src"; "__tests__"];
    ["src"; "assets"];
    ["src"; "components"; "UserControls"];
    ["src"; "external"];
    ["src"; "helpers"];
    ["src"; "hooks"];
    ["src"; "redux"];
    ["src"; "styles"; "abstract"];
    ["src"; "styles"; "pages"];
    ["public"]
  ].
Proof.
  intros d H. change (Forall (fun rel => forall q, q <> [] -> within q (d ++ rel) ->
                                         fs' !! q = Some Dir) allFolders).
  apply Forall_forall. intros rel Hrel q Hq Hw.
  by eapply (scaffold_success_folders env a fs fs' tt evs rel q).
Qed.

Lemma successful_run_leaves_every_folder_witness :
  exists fs' evs,
    scaffold quiet (demo None None) emptyDisk = (inr tt, fs', evs) /\
    fs' !! ["home"; "dev"; "demo"; "src"; "components"] = Some Dir /\
    fs' !! ["home"; "dev"; "demo"; "src"; "styles"; "pages"] = Some Dir.
Proof.
  destruct (scaffold quiet (demo None None) emptyDisk) as [[r fs'] evs] eqn:E.
  assert (Hr : r = inr tt).
  { change r with (r, fs', evs).1.1. rewrite <- E. vm_compute. reflexivity. }
  subst r. exists fs', evs. split; [reflexivity|].
  pose proof (successful_run_leaves_every_folder quiet (demo None None) emptyDisk
                fs' evs E) as H.
  rewrite Forall_forall in H. split.
  - apply (H ["src"; "components"; "UserControls"]); [| done |].
    + do 2 apply list_elem_of_further. apply list_elem_of_here.
    + by exists ["UserControls"].
  - apply (H ["src"; "styles"; "pages"]); [| done |].
    + do 8 apply list_elem_of_further. apply list_elem_of_here.
    + by exists [].
Defined.

(** X3.  After a successful run each of the seventeen files holds exactly
    its template, whatever the generator or the package manager had put at
    that path: the [App.jsx] and [main.jsx] of the generator are replaced. *)
Theorem successful_run_installs_the_templates (env : Env) (a : ScaffoldArgs)
    (fs fs' : FS) (evs : list Event) :
  let d := path_resolve (process_cwd env) (appName a) in
  scaffold env a fs = (inr tt, fs', evs) ->
  Forall (fun pc => fs' !! (d ++ pc.1) = Some (File pc.2)) files.
Proof.
  intros d H. apply scaffold_success in H as [_ Hfiles].
  apply Forall_forall. intros [rel c] Hin. by apply Hfiles.
Qed.

Lemma successful_run_installs_the_templates_witness :
  exists fs' evs,
    scaffold viteLike (demo None None) emptyDisk = (inr tt, fs', evs) /\
    (child_process viteLike (generator viteLike "demo" "npm") emptyDisk).1
      !! ["home"; "dev"; "demo"; "src"; "App.jsx"] = Some (File "generated") /\
    fs' !! ["home"; "dev"; "demo"; "src"; "App.jsx"] = Some (File appJsx).
Proof.
  destruct (scaffold viteLike (demo None None) emptyDisk) as [[r fs'] evs] eqn:E.
  assert (Hr : r = inr tt).
  { change r with (r, fs', evs).1.1. rewrite <- E. vm_compute. reflexivity. }
  subst r. exists fs', evs. split; [reflexivity|]. split.
  - vm_compute. reflexivity.
  - pose proof (successful_run_installs_the_templates viteLike (demo None None)
                  emptyDisk fs' evs E) as H.
    rewrite Forall_forall in H.
    apply (H (["src"; "App.jsx"], appJsx)). unfold files.
    do 15 apply list_elem_of_further. apply list_elem_of_here.
Defined.

(** X6.  Nothing is rolled back.  However a run ends, every file that was
    written is on the disk with the content written, and every directory
    created after the generator started is on the disk with the directories
    above it: a later failure removes nothing. *)
Theorem nothing_is_rolled_back (env : Env) (a : ScaffoldArgs) (fs : FS) :
  let run := scaffold env a fs in
  (forall p c, EvWriteFile p c None ∈ run.2 -> run.1.2 !! p = Some (File c)) /\
  (forall p q, EvMkdirp p None ∈ after_spawn run.2 ->
               q <> [] -> within q p -> run.1.2 !! q = Some Dir).
Proof. apply scaffold_keeps_what_it_made. Qed.

Lemma nothing_is_rolled_back_witness :
  (scaffold assetsDenied (demo None (Some false)) emptyDisk).1.1 =
    inl (Error "EACCES: permission denied, mkdir") /\
  (scaffold assetsDenied (demo None (Some false)) emptyDisk).1.2
    !! ["home"; "dev"; "demo"; "src"; "__tests__"] = Some Dir.
Proof.
  split; [vm_compute; reflexivity|].
  apply (proj2 (nothing_is_rolled_back assetsDenied (demo None (Some false)) emptyDisk)
           ["home"; "dev"; "demo"; "src"; "__tests__"]); [|done|apply within_refl].
  match goal with
  | |- _ ∈ ?l => let l' := eval vm_compute in l in change l with l'
  end.
  apply list_elem_of_further, list_elem_of_here.
Defined.

(** ** Running twice *)

(** X1.  A second run is refused.  Once the command has succeeded for a
    target other than the root, running it again for the same name from the
    same working directory (any options, whatever the children would do),
    on a machine that does not refuse to list the target, ends with status 1
    and the message that the directory is not empty; all it does is to look
    at the target, and the disk is left as the first run left it. *)
Theorem second_run_is_refused (env env2 : Env) (name : string) (opts opts2 : Options)
    (fs fs' : FS) (evs : list Event) :
  let d := path_resolve (process_cwd env) name in
  d <> [] ->
  process_cwd env2 = process_cwd env ->
  action env name opts fs = (0, fs', evs) ->
  readdir_fault env2 d fs' = None ->
  exists names,
    action env2 name opts2 fs' =
      (1, fs',
       [EvPathExists d true; EvReaddir d (inr names);
        EvConsoleError
          [PStr (nl +:+ " Scaffold failed:");
           PStr ("Directory '" +:+ name +:+ "' already exists and is not empty.")]]).
Proof.
  intros d Hd Hcwd H Hlist. unfold action in H.
  destruct (scaffold env _ fs) as [[[e|[]] fs1] ev1] eqn:E; [discriminate|].
  injection H as <- _.
  assert (Hdir : fs1 !! d = Some Dir).
  { eapply (scaffold_success_folders env _ fs fs1 tt ev1 ["public"] d E);
      [apply public_in_allFolders | done | by exists ["public"]]. }
  assert (Hpub : is_Some (fs1 !! (d ++ ["public"]))).
  { exists Dir.
    eapply (scaffold_success_folders env _ fs fs1 tt ev1 ["public"] _ E);
      [apply public_in_allFolders | by destruct d | apply within_refl]. }
  exists (fs_entries d fs1). unfold action. rewrite scaffold_unfold. cbv zeta.
  cbn [appName]. rewrite Hcwd. fold d.
  rewrite checkTarget_unfold, Hdir, (listing_dir _ _ _ Hlist Hdir).
  rewrite (fs_entries_cons _ _ _ Hpub). reflexivity.
Qed.

Lemma second_run_is_refused_witness :
  exists fs' evs names,
    action quiet "demo" defaultOptions emptyDisk = (0, fs', evs) /\
    readdir_fault installFails ["home"; "dev"; "demo"] fs' = None /\
    action installFails "demo" {| opt_packageManager := "bun"; opt_install := false |}
      fs' =
      (1, fs',
       [EvPathExists ["home"; "dev"; "demo"] true;
        EvReaddir ["home"; "dev"; "demo"] (inr names);
        EvConsoleError
          [PStr (nl +:+ " Scaffold failed:");
           PStr "Directory 'demo' already exists and is not empty."]]).
Proof.
  destruct (action quiet "demo" defaultOptions emptyDisk) as [[st fs'] evs] eqn:E.
  assert (Hst : st = 0).
  { change st with (st, fs', evs).1.1. rewrite <- E. vm_compute. reflexivity. }
  subst st.
  destruct (second_run_is_refused quiet installFails "demo" defaultOptions
              {| opt_packageManager := "bun"; opt_install := false |}
              emptyDisk fs' evs) as [names H];
    [done | reflexivity | exact E | reflexivity |].
  exists fs', evs, names. split; [reflexivity|]. split; [reflexivity | exact H].
Defined.

(** ** The order of a run *)

Lemma split_after (A L pre post : list Event) (ev : Event) :
  pre ++ ev :: post = A ++ L -> ev ∉ A -> exists l, L = l ++ ev :: post.
Proof.
  revert pre. induction A as [|x A IH]; intros pre H Hnot.
  - by exists pre.
  - destruct pre as [|y pre]; cbn in H; injection H as -> H.
    + exfalso. apply Hnot. left.
    + apply (IH pre H). intros Hin. apply Hnot. by right.
Qed.

(** X5.  Children first.  In every run, once [scaffold] has created a
    directory or written a file strictly below the target, no child process
    is started or awaited any more: the generator and the install commands
    are all over before the first folder is made. *)
Theorem children_finish_before_the_folders (env : Env) (a : ScaffoldArgs) (fs : FS)
    (pre post : list Event) (ev : Event) (p : path) :
  let d := path_resolve (process_cwd env) (appName a) in
  (scaffold env a fs).2 = pre ++ ev :: post ->
  fs_path ev = Some p -> strictly_under d p ->
  spawned post = [] /\ exited post = [].
Proof.
  intros d Hsplit Hp Hunder.
  pose proof (checkTarget_quiet env (appName a) d fs) as (_ & _ & Hpath).
  assert (Hcheck : ev ∉ (checkTarget env (appName a) d fs).2).
  { intros Hin. rewrite (Hpath ev p Hin Hp) in Hunder.
    by apply strictly_under_irrefl in Hunder. }
  assert (Hchild : forall evC, Forall (fun x => is_child_event x = true) evC -> ev ∉ evC).
  { intros evC HC Hin. rewrite Forall_forall in HC. specialize (HC ev Hin).
    by destruct ev. }
  assert (Hspawn : forall c, ev <> EvSpawn c) by (intros c ->; done).
  destruct (scaffold_cases env a fs)
    as [[_ E] | (evC & fsC & _ & HC & [[e E] | [_ E]])];
    fold d in E; rewrite E in Hsplit; cbn [snd] in Hsplit.
  - exfalso. apply Hcheck. rewrite Hsplit. apply elem_of_app. right. left.
  - exfalso.
    assert (Hin : ev ∈ (checkTarget env (appName a) d fs).2 ++ EvSpawn
                          (generator env (appName a) (default "npm" (packageManager a)))
                          :: evC).
    { rewrite Hsplit. apply elem_of_app. right. left. }
    apply elem_of_app in Hin as [Hin | Hin]; [done|].
    apply elem_of_cons in Hin as [Hin | Hin]; [by eapply Hspawn | by eapply Hchild].
  - symmetry in Hsplit.
    change (?x ++ ?y :: ?z ++ ?w) with (x ++ (y :: z) ++ w) in Hsplit.
    rewrite app_assoc in Hsplit.
    apply split_after in Hsplit as [l Hl].
    + pose proof (under_later env d fsC) as HL. fold (foldersAndFiles env d) in HL.
      rewrite Hl in HL. apply Forall_app in HL as [_ HL].
      apply Forall_cons in HL as [_ HL].
      apply own_under_no_children, no_children_spawned in HL as (H1 & H2 & _).
      by split.
    + intros [Hin | Hin]%elem_of_app; [done|].
      apply elem_of_cons in Hin as [Hin | Hin]; [by eapply Hspawn | by eapply Hchild].
Qed.

Lemma children_finish_before_the_folders_witness :
  exists pre post,
    (scaffold quiet (demo None None) emptyDisk).2 =
      pre ++ EvMkdirp ["home"; "dev"; "demo"; "src"; "__tests__"] None :: post /\
    length pre = 10 /\ spawned post = [] /\ exited post = [].
Proof.
  set (evs := (scaffold quiet (demo None None) emptyDisk).2).
  exists (take 10 evs), (drop 11 evs).
  assert (Hsplit : evs = take 10 evs ++
            EvMkdirp ["home"; "dev"; "demo"; "src"; "__tests__"] None :: drop 11 evs)
    by (vm_compute; reflexivity).
  split; [exact Hsplit|]. split; [vm_compute; reflexivity|].
  apply (children_finish_before_the_folders quiet (demo None None) emptyDisk
           (take 10 evs) (drop 11 evs)
           (EvMkdirp ["home"; "dev"; "demo"; "src"; "__tests__"] None)
           ["home"; "dev"; "demo"; "src"; "__tests__"]).
  - exact Hsplit.
  - reflexivity.
  - by exists ["src"; "__tests__"].
Defined.

(** ** What a run never does *)

Lemma grows_same (q : path) {A} (m : M A) :
  (forall fs, (m fs).1.2 = fs) -> grows q m.
Proof. intros H fs. left. by rewrite H. Qed.

Lemma grows_bind (q : path) {A B} (m : M A) (k : A -> M B) :
  grows q m -> (forall a, grows q (k a)) -> grows q (m ≫= k).
Proof.
  intros Hm Hk fs. rewrite bind_unfold. specialize (Hm fs).
  destruct (m fs) as [[[e|a] fs1] ev1]; [done|]. cbn [fst snd] in Hm.
  specialize (Hk a fs1). destruct (k a fs1) as [[r fs2] ev2]. cbn [fst snd] in *.
  destruct Hm as [Hm | [Hm1 Hm2]], Hk as [Hk | [Hk1 Hk2]].
  - left. congruence.
  - right. split; congruence.
  - right. split; congruence.
  - congruence.
Qed.

Lemma grows_promise_all (q : path) (ms : list (M unit)) :
  Forall (grows q) ms -> grows q (promise_all ms).
Proof.
  induction 1 as [|m ms Hm _ IH]; intros fs; cbn; [by left|].
  specialize (Hm fs). destruct (m fs) as [[r fs1] ev1]. cbn [fst snd] in Hm.
  specialize (IH fs1). destruct (promise_all ms fs1) as [[r' fs2] ev2].
  cbn [fst snd] in *.
  destruct Hm as [Hm | [Hm1 Hm2]], IH as [Hk | [Hk1 Hk2]].
  - left. congruence.
  - right. split; congruence.
  - right. split; congruence.
  - congruence.
Qed.

Lemma grows_mkdirp (env : Env) (q p : path) : grows q (mkdirp env p).
Proof.
  intros fs.
  destruct (mkdirp_run env p fs) as [(fs' & -> & Hmk) | (e & fs' & -> & Hmk)];
    cbn; (destruct (mkdirs_frame _ _ _ _ _ _ q Hmk) as [-> | (Hn & Hd & _)];
          [by left | by right]).
Qed.

Lemma grows_writeFile (env : Env) (q p : path) (c : string) :
  q <> p -> grows q (writeFile env p c).
Proof.
  intros H fs. left. destruct (writeFile_run env p c fs) as [-> | (e & ->)]; [|done].
  cbn. by rewrite lookup_insert_ne.
Qed.

Lemma grows_await_run (env : Env) (q : path) (c : string) (a : list string)
    (dir : path) :
  (forall child fs, (child_process env child fs).1 !! q = fs !! q) ->
  grows q (await env (run c a dir)).
Proof.
  intros H fs. left. rewrite await_run. cbv zeta.
  specialize (H {| cmd := c; args := a; cwd := dir; stdio := "inherit" |} fs).
  by destruct (child_process env _ fs) as [fs' r].
Qed.

(** X7.  [scaffold] itself removes nothing and overwrites nothing but its
    seventeen files.  At any other path that the children leave alone, the
    disk after the run is what it was before, or the path was missing and is
    now a directory. *)
Theorem own_operations_only_add (env : Env) (a : ScaffoldArgs) (fs : FS) (q : path) :
  let d := path_resolve (process_cwd env) (appName a) in
  (forall child fs0, (child_process env child fs0).1 !! q = fs0 !! q) ->
  (forall rel c, (rel, c) ∈ files -> q <> d ++ rel) ->
  (scaffold env a fs).1.2 !! q = fs !! q \/
  (fs !! q = None /\ (scaffold env a fs).1.2 !! q = Some Dir).
Proof.
  intros d Hchild Hfiles. revert fs.
  change (grows q (scaffold env a)).
  unfold scaffold. cbv zeta. fold d.
  apply grows_bind; [|intros _].
  { unfold checkTarget. apply grows_bind; [by apply grows_same|].
    intros [|]; [|apply grows_mkdirp].
    apply grows_bind; [by apply grows_same|]. intros l.
    destruct (negb _); by apply grows_same. }
  unfold afterTarget. apply grows_bind; [|intros _].
  { unfold createVite. destruct (viteCommand _ _). by apply grows_await_run. }
  apply grows_bind; [|intros _].
  { unfold installDeps. destruct (default true (install a)); [|by apply grows_same].
    do 2 (apply grows_bind; [by apply grows_await_run | intros _]).
    by apply grows_await_run. }
  apply grows_bind; [|intros _].
  { rewrite createFolders_table. apply grows_bind; [|intros _; apply grows_mkdirp].
    apply grows_promise_all, Forall_map, Forall_forall. intros rel _.
    apply grows_mkdirp. }
  rewrite writeFiles_table. revert Hfiles. generalize files.
  induction l as [|[p c] tbl IH]; intros Hfiles; cbn.
  - by apply grows_same.
  - apply grows_bind; [|intros _; apply IH].
    + apply grows_writeFile. eapply Hfiles. left.
    + intros rel c' Hin. eapply Hfiles. right. exact Hin.
Qed.

Lemma own_operations_only_add_witness :
  emptyDisk !! ["home"; "dev"; "demo"; "src"] = None /\
  (scaffold quiet (demo None None) emptyDisk).1.2 !! ["home"; "dev"; "demo"; "src"] =
    Some Dir.
Proof.
  destruct (own_operations_only_add quiet (demo None None) emptyDisk
              ["home"; "dev"; "demo"; "src"]) as [H | H].
  - reflexivity.
  - intros rel c Hin Heq. cbn in Heq. injection Heq as <-.
    unfold files in Hin.
    repeat (apply elem_of_cons in Hin as [[=] | Hin]). by apply elem_of_nil in Hin.
  - exfalso. revert H. vm_compute. discriminate.
  - exact H.
Defined.

(** ** What the console shows *)

Lemma console_app (a b : list Event) : console (a ++ b) = console a ++ console b.
Proof. apply omap_app. Qed.

Lemma scaffold_console (env : Env) (a : ScaffoldArgs) (fs : FS) :
  console (scaffold env a fs).2 =
  match (scaffold env a fs).1.1 with
  | inr _ => [EvConsoleLog finalTip]
  | inl _ => []
  end.
Proof.
  pose proof (checkTarget_quiet env (appName a)
                (path_resolve (process_cwd env) (appName a)) fs) as (Hcon & _ & _).
  destruct (scaffold_cases env a fs)
    as [[[e He] ->] | (evC & fsC & _ & HC & [[e ->] | [_ ->]])]; cbn [fst snd].
  - by rewrite He.
  - apply children_only in HC as (HCc & _). rewrite console_app, Hcon.
    change (console (EvSpawn ?c :: evC)) with (console evC). by rewrite HCc.
  - apply children_only in HC as (HCc & _).
    destruct (foldersAndFiles_persist env
                (path_resolve (process_cwd env) (appName a)) fsC) as (_ & _ & HL).
    change (?x ++ ?y :: ?z ++ ?w) with (x ++ (y :: z) ++ w).
    rewrite !console_app, Hcon, <- HL.
    change (console (EvSpawn ?c :: evC)) with (console evC). by rewrite HCc.
Qed.

(** X10.  On success the console shows two lines, the tip of the scaffolder
    and then the next steps; on failure it shows one line, on the error
    stream, and the tip is not printed. *)
Theorem cli_console_lines (env : Env) (name : string) (opts : Options) (fs : FS) :
  let out := action env name opts fs in
  (out.1.1 = 0 ->
   console out.2 =
     [EvConsoleLog "\n Scaffolded Redux, hooks, API, Toaster, and SCSS successfully.";
      EvConsoleLog (nl +:+ " Done. Next:" +:+ nl +:+ "  cd " +:+ name +:+ nl +:+
                    "  " +:+ opt_packageManager opts +:+ " run dev" +:+ nl)]) /\
  (out.1.1 = 1 ->
   exists shown,
     console out.2 = [EvConsoleError [PStr (nl +:+ " Scaffold failed:"); shown]]).
Proof.
  intros out. subst out. unfold action.
  pose proof (scaffold_console env
                {| appName := name; packageManager := Some (opt_packageManager opts);
                   install := Some (opt_install opts) |} fs) as Hc.
  destruct (scaffold env _ fs) as [[[e|u] fs'] evs]; cbn [fst snd] in *.
  - split; [discriminate|]. intros _. exists (messageOrError e).
    by rewrite console_app, Hc.
  - split; [|discriminate]. intros _. by rewrite console_app, Hc.
Qed.

Lemma cli_console_lines_witness :
  (action quiet "demo" defaultOptions emptyDisk).1.1 = 0 /\
  length (console (action quiet "demo" defaultOptions emptyDisk).2) = 2 /\
  (action quiet "demo" defaultOptions populatedDisk).1.1 = 1 /\
  length (console (action quiet "demo" defaultOptions populatedDisk).2) = 1.
Proof.
  assert (H0 : (action quiet "demo" defaultOptions emptyDisk).1.1 = 0)
    by (vm_compute; reflexivity).
  assert (H1 : (action quiet "demo" defaultOptions populatedDisk).1.1 = 1)
    by (vm_compute; reflexivity).
  split; [exact H0|]. split.
  - by rewrite (proj1 (cli_console_lines quiet "demo" defaultOptions emptyDisk) H0).
  - split; [exact H1|].
    destruct (proj2 (cli_console_lines quiet "demo" defaultOptions populatedDisk) H1)
      as [shown ->]. reflexivity.
Defined.

(** ** A child that fails *)

Lemma ran_in_order_failure (plan : list Command) (r : JsError + unit)
    (xs : list (Command * option JsError)) (c : Command) (e : JsError) :
  ran_in_order plan r xs -> (c, Some e) ∈ xs -> r = inl e.
Proof.
  revert xs. induction plan as [|c0 plan IH]; intros xs H Hin.
  - destruct xs; [by apply elem_of_nil in Hin | done].
  - destruct xs as [|[c' [e'|]] xs]; cbn in H; [done| |].
    + destruct xs; [|done]. destruct H as [_ ->].
      apply list_elem_of_singleton in Hin. by injection Hin as _ ->.
    + destruct H as [_ H]. apply elem_of_cons in Hin as [[=] | Hin]. by eapply IH.
Qed.

Lemma checkTarget_calls (env : Env) (name : string) (d : path) (fs : FS) :
  fs_calls (checkTarget env name d fs).2 = [] \/
  fs_calls (checkTarget env name d fs).2 = [Mkdirp d].
Proof.
  rewrite checkTarget_unfold.
  destruct (fs !! d) as [n|]; [destruct (listing env d fs) as [e|names]|];
    cbn [snd]; [by left..|].
  destruct (mkdirp_run env d fs) as [(fs1 & -> & _) | (e & fs1 & -> & _)]; by right.
Qed.

(** X11.  When a child process fails, its error is the error of the run and
    no folder and no file of the template has been asked for: apart from the
    target directory itself, the disk holds what the children left. *)
Theorem failed_child_means_no_template (env : Env) (a : ScaffoldArgs) (fs : FS)
    (c : Command) (e : JsError) :
  let d := path_resolve (process_cwd env) (appName a) in
  let run := scaffold env a fs in
  (c, Some e) ∈ exited run.2 ->
  run.1.1 = inl e /\ (fs_calls run.2 = [] \/ fs_calls run.2 = [Mkdirp d]).
Proof.
  intros d run Hin. subst run. split.
  - destruct (scaffold_children env a fs) as [(_ & Hx & _) | [_ Hr]].
    + rewrite Hx in Hin. by apply elem_of_nil in Hin.
    + by eapply ran_in_order_failure.
  - pose proof (checkTarget_calls env (appName a) d fs) as Hcalls.
    pose proof (checkTarget_no_children env (appName a) d fs) as Hquiet.
    apply no_children_spawned in Hquiet as (_ & Hex & _).
    destruct (scaffold_cases env a fs)
      as [[_ E] | (evC & fsC & _ & HC & [[e0 E] | [Hok E]])];
      fold d in E; rewrite E in Hin |- *; cbn [fst snd] in *.
    + done.
    + apply children_only in HC as (_ & HCcalls & _).
      rewrite fs_calls_app.
      change (fs_calls (EvSpawn ?x :: ?l)) with (fs_calls l).
      rewrite HCcalls, app_nil_r. done.
    + exfalso. rewrite omap_exited_app, Hex in Hin. cbn [app] in Hin.
      change (exited (EvSpawn ?x :: ?l)) with (exited l) in Hin.
      rewrite omap_exited_app in Hin.
      pose proof (under_later env d fsC) as HL. fold (foldersAndFiles env d) in HL.
      apply own_under_no_children, no_children_spawned in HL as (_ & HLex & _).
      rewrite HLex, app_nil_r in Hin.
      apply list_elem_of_omap in Hin as (ev & Hev & Hsome).
      rewrite Forall_forall in Hok. specialize (Hok ev Hev).
      destruct ev; try discriminate. injection Hsome as -> ->. done.
Qed.

Lemma failed_child_means_no_template_witness :
  (scaffold installFails (demo None None) emptyDisk).1.1 =
    inl (Error "Command failed with exit code 1: npm install") /\
  fs_calls (scaffold installFails (demo None None) emptyDisk).2 =
    [Mkdirp ["home"; "dev"; "demo"]].
Proof.
  destruct (failed_child_means_no_template installFails (demo None None) emptyDisk
              {| cmd := "npm"; args := ["install"]; cwd := ["home"; "dev"; "demo"];
                 stdio := "inherit" |}
              (Error "Command failed with exit code 1: npm install")) as [Hr Hc].
  - match goal with
    | |- _ ∈ ?l => let l' := eval vm_compute in l in change l with l'
    end.
    apply list_elem_of_further, list_elem_of_here.
  - split; [exact Hr|]. destruct Hc as [Hc | Hc]; [|exact Hc].
    exfalso. revert Hc. vm_compute. discriminate.
Defined.

(** ** One plan, asked for once *)

Lemma mkdirAll_calls (env : Env) (d : path) (rels : list path) (fs : FS) :
  fs_calls (mkdirAll env d rels fs).2 = map (fun rel => Mkdirp (d ++ rel)) rels.
Proof.
  revert fs. induction rels as [|rel rels IH]; intros fs; [done|].
  unfold mkdirAll. cbn [map promise_all]. fold (mkdirAll env d rels).
  destruct (mkdirp_run env (d ++ rel) fs) as [(fs1 & -> & _) | (e & fs1 & -> & _)].
  - specialize (IH fs1). destruct (mkdirAll env d rels fs1) as [[r' fs2] ev2].
    cbn [fst snd app] in *. change (fs_calls (EvMkdirp ?p ?r :: ?l))
      with (Mkdirp p :: fs_calls l). by rewrite IH.
  - specialize (IH fs1). destruct (mkdirAll env d rels fs1) as [[r' fs2] ev2].
    cbn [fst snd app] in *. change (fs_calls (EvMkdirp ?p ?r :: ?l))
      with (Mkdirp p :: fs_calls l). by rewrite IH.
Qed.

Lemma writeAll_calls (env : Env) (d : path) (tbl : list (path * string)) (s : string)
    (fs : FS) :
  fs_calls (writeAll env d tbl (console_log s) fs).2
    `prefix_of` map (fun pc => WriteFile (d ++ pc.1) pc.2) tbl.
Proof.
  revert fs. induction tbl as [|[p c] tbl IH]; intros fs; [by exists []|].
  cbn [writeAll foldr]. fold (writeAll env d tbl (console_log s)).
  rewrite bind_unfold. cbn [fst snd].
  destruct (writeFile_run env (d ++ p) c fs) as [-> | (e & ->)].
  - specialize (IH (<[d ++ p := File c]> fs)).
    destruct (writeAll env d tbl _ _) as [[r' fs2] ev2]. cbn [fst snd app map] in *.
    change (fs_calls (EvWriteFile ?p ?c ?r :: ?l)) with (WriteFile p c :: fs_calls l).
    by apply prefix_cons.
  - cbn [snd map]. change (fs_calls [EvWriteFile ?p ?c ?r]) with [WriteFile p c].
    by eexists.
Qed.

Lemma foldersAndFiles_calls (env : Env) (d : path) (fs : FS) :
  fs_calls (foldersAndFiles env d fs).2 `prefix_of` plannedCalls d.
Proof.
  rewrite foldersAndFiles_unfold. unfold plannedCalls. rewrite map_app.
  pose proof (mkdirAll_calls env d folders fs) as HF.
  destruct (mkdirAll env d folders fs) as [[[e|u] fsF] evF]; cbn [fst snd] in *.
  { rewrite HF, <- app_assoc. by eexists. }
  destruct (mkdirp_run env (d ++ ["public"]) fsF) as [(fsP & -> & _) | (e & fsP & -> & _)].
  2:{ cbn [snd]. rewrite fs_calls_app, HF. by eexists. }
  pose proof (writeAll_calls env d files finalTip fsP) as [rest HW].
  destruct (writeAll env d files (console_log finalTip) fsP) as [[r fsW] evW].
  cbn [fst snd] in *. rewrite !fs_calls_app, HF, HW.
  exists rest. by rewrite <- !app_assoc.
Qed.

Lemma plannedCalls_NoDup (d : path) : NoDup (Mkdirp d :: plannedCalls d).
Proof.
  assert (HnF : NoDup allFolders) by (apply (bool_decide_unpack _); vm_compute; done).
  assert (HnW : NoDup files) by (eapply NoDup_fmap_1, files_NoDup).
  assert (HneF : Forall (fun rel : path => rel <> []) allFolders).
  { unfold allFolders. apply Forall_app_2; [apply folders_nonempty|].
    by apply Forall_singleton. }
  unfold plannedCalls. fold allFolders. apply NoDup_cons. split.
  - intros [Hin | Hin]%elem_of_app.
    + apply list_elem_of_In, in_map_iff in Hin as (rel & Heq & Hrel).
      injection Heq as Heq. rewrite <- (app_nil_r d) in Heq at 2.
      apply app_inv_head in Heq. rewrite Forall_forall in HneF.
      by apply (HneF rel); [apply list_elem_of_In|].
    + by apply list_elem_of_In, in_map_iff in Hin as (pc & [=] & _).
  - apply NoDup_app. split; [|split].
    + clear HneF. induction HnF as [|rel rels Hnot _ IH]; [constructor|].
      cbn. apply NoDup_cons. split; [|exact IH].
      intros Hin. apply list_elem_of_In, in_map_iff in Hin as (rel' & Heq & Hrel).
      injection Heq as Heq. apply app_inv_head in Heq as ->.
      by apply Hnot, list_elem_of_In.
    + intros call Hm Hw.
      apply list_elem_of_In, in_map_iff in Hm as (rel & <- & _).
      by apply list_elem_of_In, in_map_iff in Hw as (pc & [=] & _).
    + induction HnW as [|[p c] tbl Hnot _ IH]; [constructor|].
      cbn. apply NoDup_cons. split; [|exact IH].
      intros Hin. apply list_elem_of_In, in_map_iff in Hin as ([p' c'] & Heq & Hpc).
      cbn in Heq. injection Heq as Heq ->. apply app_inv_head in Heq as ->.
      by apply Hnot, list_elem_of_In.
Qed.

Lemma NoDup_prefix {A} (x : A) (l l' : list A) :
  l `prefix_of` l' -> NoDup (x :: l') -> NoDup (x :: l) /\ NoDup l.
Proof.
  intros [k ->] H. change (NoDup ((x :: l) ++ k)) in H.
  apply NoDup_app in H as [H _]. split; [done|]. by apply NoDup_cons in H as [_ H].
Qed.

(** X12.  What a run asks of the file system after the generator has been
    started is an initial part of one fixed list: the ten folders, then the
    seventeen files, in the order of the source; and over the whole run no
    creation and no write is asked for twice. *)
Theorem calls_follow_one_plan (env : Env) (a : ScaffoldArgs) (fs : FS) :
  let d := path_resolve (process_cwd env) (appName a) in
  let run := scaffold env a fs in
  fs_calls (after_spawn run.2)
    `prefix_of` (map (fun rel => Mkdirp (d ++ rel)) (folders ++ [["public"]]) ++
                 map (fun pc => WriteFile (d ++ pc.1) pc.2) files) /\
  NoDup (fs_calls run.2).
Proof.
  intros d run. subst run. fold (plannedCalls d).
  pose proof (checkTarget_calls env (appName a) d fs) as Hcalls.
  pose proof (checkTarget_no_children env (appName a) d fs) as Hquiet.
  pose proof (plannedCalls_NoDup d) as Hnd.
  destruct (scaffold_cases env a fs)
    as [[_ E] | (evC & fsC & _ & HC & [[e0 E] | [_ E]])];
    fold d in E; rewrite E; cbn [fst snd].
  - apply no_children_spawned in Hquiet as (_ & _ & ->). split; [by eexists|].
    destruct Hcalls as [-> | ->]; [constructor | apply NoDup_singleton].
  - apply children_only in HC as (_ & HCcalls & _).
    rewrite after_spawn_app by done. rewrite HCcalls. split; [by eexists|].
    rewrite fs_calls_app. change (fs_calls (EvSpawn ?x :: ?l)) with (fs_calls l).
    rewrite HCcalls, app_nil_r.
    destruct Hcalls as [-> | ->]; [constructor | apply NoDup_singleton].
  - apply children_only in HC as (_ & HCcalls & _).
    pose proof (foldersAndFiles_calls env d fsC) as Hpre.
    rewrite after_spawn_app by done. rewrite fs_calls_app, HCcalls. split; [done|].
    rewrite fs_calls_app. change (fs_calls (EvSpawn ?x :: ?l)) with (fs_calls l).
    rewrite fs_calls_app, HCcalls. cbn [app].
    destruct (NoDup_prefix _ _ _ Hpre Hnd) as [H1 H2].
    destruct Hcalls as [-> | ->]; done.
Qed.
